(** * combine.py: merging a drive graph and a walk graph into one network

    A shallow embedding of [src/data/networks/combine.py] and the properties
    of its graph-merge-and-materialize pipeline.

    Python values are modelled as the code handles them: GraphML attribute
    values are strings, integers, floats or booleans; attribute dictionaries
    are finite maps keyed by strings; a Python float is an IEEE-754 binary64
    number (the executable [spec_float] model of the Standard Library);
    exceptions are the [Err] side of a result type.  Functions of external
    libraries (libm, pyproj, ElementTree's serializer, gzip, networkx'
    reader, CPython's number formatting and parsing) are fields of a record
    [Libs] over which the development is parameterised. *)

From Stdlib Require Import ZArith String Ascii List Bool Lia.
From Stdlib Require Import Floats.SpecFloat.
From stdpp Require Import base option list gmap strings pretty sorting.

Local Open Scope string_scope.
Local Open Scope list_scope.

(** ** Python floats: IEEE-754 binary64 *)

Module F.
Definition prec : Z := 53.
Definition emax : Z := 1024.
Definition float : Type := spec_float.

(** [float(n)] for an integer that fits: round to nearest even. *)
Definition of_Z (n : Z) : float := binary_normalize prec emax n 0 false.

Definition zero : float := S754_zero false.
Definition add : float -> float -> float := SFadd prec emax.
Definition sub : float -> float -> float := SFsub prec emax.
Definition mul : float -> float -> float := SFmul prec emax.
Definition div : float -> float -> float := SFdiv prec emax.
Definition sqrt : float -> float := SFsqrt prec emax.
Definition eqb : float -> float -> bool := SFeqb.
Definition ltb : float -> float -> bool := SFltb.

Definition is_inf (x : float) : bool :=
  match x with S754_infinity _ => true | _ => false end.

(** A decimal literal [n / 10^k]: the double nearest to the quotient, which
    is what dividing the two (exactly representable) operands yields. *)
Definition dec (n : Z) (k : nat) : float := div (of_Z n) (of_Z (10 ^ Z.of_nat k)).

Global Instance float_eq_dec : EqDecision float.
Proof. solve_decision. Defined.
End F.

Abbreviation float := F.float.

(** ** Exceptions and results *)

Inductive py_error : Type :=
  | MissingCoordinate (nid : string)
      (* ValueError("Node {nid} missing coordinate attributes in GraphML") *)
  | ValueError (what : string)
      (* float() of a non-numeric string, math domain error, empty path name *)
  | TypeError
  | KeyError (key : string)
  | OverflowError
  | XPathError (pid : string)
      (* SyntaxError or KeyError raised by ElementTree's path compiler *)
  | SystemExit (msg : string).

Inductive result (A : Type) : Type :=
  | Ok (a : A)
  | Err (e : py_error).
Arguments Ok {A} a.
Arguments Err {A} e.

Global Instance result_ret : MRet result := @Ok.
Global Instance result_bind : MBind result := fun A B k m =>
  match m with
  | Ok a => k a
  | Err e => Err e
  end.

Definition is_ok {A : Type} (m : result A) : bool :=
  match m with Ok _ => true | Err _ => false end.

(** A loop whose body may raise: the first exception ends the loop. *)
Fixpoint foldM {A S : Type} (f : S -> A -> result S) (s : S) (l : list A) : result S :=
  match l with
  | [] => Ok s
  | a :: l' => s' ← f s a; foldM f s' l'
  end.

(** ** Python values carried by GraphML attributes *)

Inductive py_val : Type :=
  | PyStr (s : string)
  | PyInt (z : Z)
  | PyFloat (f : float)
  | PyBool (b : bool).

(** Truth value of an object; [None] (an absent key under [dict.get]) is falsy. *)
Definition truthy (v : py_val) : bool :=
  match v with
  | PyStr s => negb (String.eqb s "")
  | PyInt z => negb (Z.eqb z 0)
  | PyFloat f => negb (F.eqb f F.zero)
  | PyBool b => b
  end.

Definition truthy_opt (o : option py_val) : bool :=
  match o with
  | Some v => truthy v
  | None => false
  end.

(** [a or b]: [a] when it is truthy, else [b] whatever [b] is. *)
Definition py_or (a b : option py_val) : option py_val :=
  if truthy_opt a then a else b.

(** A number: an int or a float attribute value. *)
Definition numeric (v : py_val) : bool :=
  match v with
  | PyInt _ | PyFloat _ => true
  | PyStr _ | PyBool _ => false
  end.

(** [float(n)] for a Python int: OverflowError when out of range. *)
Definition float_of_int (z : Z) : result float :=
  let f := F.of_Z z in
  if F.is_inf f then Err OverflowError else Ok f.

Definition float_of_bool (b : bool) : float :=
  if b then F.of_Z 1 else F.zero.

(** [str.lower()] on the ASCII range. Outside it no code point lowers to one
    of the letters of "true", "1" or "yes", so membership in that set is
    decided by the ASCII part. *)
Definition ascii_lower (c : ascii) : ascii :=
  let n := nat_of_ascii c in
  if (65 <=? n)%nat && (n <=? 90)%nat then ascii_of_nat (n + 32) else c.

Fixpoint lower (s : string) : string :=
  match s with
  | EmptyString => EmptyString
  | String c s' => String (ascii_lower c) (lower s')
  end.

Fixpoint contains_char (c : ascii) (s : string) : bool :=
  match s with
  | EmptyString => false
  | String d s' => Ascii.eqb c d || contains_char c s'
  end.

(** ** Source graphs (networkx) and the element tree (ElementTree) *)

Abbreviation attrs := (gmap string py_val).

(** What the code uses of a [networkx] graph: the nodes with their attribute
    dictionaries, in iteration order, and the edges with theirs. *)
Record graph : Type := {
  g_nodes : list (string * attrs);
  g_edges : list (string * string * attrs)
}.

(** [g.nodes[u]]: the attribute dictionary of node [u], KeyError when the
    graph has no such node. *)
Fixpoint node_view (ns : list (string * attrs)) (u : string) : result attrs :=
  match ns with
  | [] => Err (KeyError u)
  | (nid, a) :: ns' => if String.eqb nid u then Ok a else node_view ns' u
  end.

(** [d[key]] on a dictionary. *)
Definition getitem {V : Type} (d : gmap string V) (key : string) : result V :=
  match d !! key with
  | Some v => Ok v
  | None => Err (KeyError key)
  end.

(** A <node> element and a <link> element with their attribute strings. *)
Record node_elem : Type := {
  n_id : string;
  n_x : string;
  n_y : string
}.

Record link_elem : Type := {
  l_id : string;
  l_from : string;
  l_to : string;
  l_length : string;
  l_freespeed : string;
  l_capacity : string;
  l_permlanes : string;
  l_modes : string
}.

(** The <network> root: its <nodes> and <links> containers, in document order. *)
Record network : Type := {
  nodes : list node_elem;
  links : list link_elem
}.

(** The file system as far as the program touches it: path to contents. *)
Abbreviation files := (gmap string string).

(** ** External libraries *)

Record Libs : Type := {
  (* libm through the math module; sin and cos raise on an infinite argument *)
  math_sin : float -> result float;
  math_cos : float -> result float;
  math_atan2 : float -> float -> float;
  math_radians : float -> float;
  (* float.__pow__, OverflowError when the result is out of range *)
  float_pow : float -> float -> result float;
  (* float(s) on a str: None stands for ValueError *)
  float_of_str : string -> option float;
  (* pyproj's transformer.transform(lon, lat), EPSG:4326 to EPSG:5179 *)
  transform : float -> float -> float * float;
  (* f"{x}", f"{x:.3f}" and f"{x:.1f}" *)
  format_float : float -> string;
  format_fixed : nat -> float -> string;
  (* root.find("nodes/node[@id='pid']") when pid holds an apostrophe, so
     that the predicate is not the one intended: whether an element is found,
     or the exception of ElementTree's path compiler *)
  find_quoted : network -> string -> result bool;
  (* ET.indent followed by ET.tostring(root, encoding="utf-8") *)
  tostring : network -> string;
  (* gzip.open(path, "wb").write(data) then close: the bytes of the file *)
  gzip_compress : string -> string -> string;
  gzip_decompress : string -> option string;
  (* nx.read_graphml on the contents of a file: None stands for any exception *)
  read_graphml : string -> option graph
}.

(** ** constants & defaults *)

Definition CAR_DEFAULT_SPEED : float := F.of_Z 15.
Definition WALK_DEFAULT_SPEED : float := F.dec 14 1.
Definition DEFAULT_CAPACITY : float := F.of_Z 1000.
Definition DEFAULT_LANES : Z := 1.
Definition dquote : string := String (ascii_of_nat 34) EmptyString.
Definition newline : string := String (ascii_of_nat 10) EmptyString.

Definition MATSim_DOCTYPE : string :=
  "<!DOCTYPE network SYSTEM " ++ dquote ++
  "http://www.matsim.org/files/dtd/network_v2.dtd" ++ dquote ++ ">" ++ newline.

Definition XML_DECLARATION : string :=
  "<?xml version=" ++ dquote ++ "1.0" ++ dquote ++
  " encoding=" ++ dquote ++ "utf-8" ++ dquote ++ "?>" ++ newline.

Section Combine.

Variable L : Libs.

(** [float(v)] *)
Definition py_float (v : py_val) : result float :=
  match v with
  | PyStr s =>
      match float_of_str L s with
      | Some f => Ok f
      | None => Err (ValueError s)
      end
  | PyInt z => float_of_int z
  | PyFloat f => Ok f
  | PyBool b => Ok (float_of_bool b)
  end.

(** [float(o)] where [o] may be None. *)
Definition py_float_opt (o : option py_val) : result float :=
  match o with
  | Some v => py_float v
  | None => Err TypeError
  end.

(** [str(v)] *)
Definition py_str (v : py_val) : string :=
  match v with
  | PyStr s => s
  | PyInt z => pretty z
  | PyFloat f => format_float L f
  | PyBool b => if b then "True" else "False"
  end.

(** [math.sqrt]: a domain error below zero. *)
Definition math_sqrt (x : float) : result float :=
  if F.ltb x F.zero then Err (ValueError "math domain error") else Ok (F.sqrt x).

(** *** helpers *)

Definition haversine (lon1 lat1 lon2 lat2 : float) : result float :=
  let R : Z := 6371000%Z in
  let phi1 := math_radians L lat1 in
  let phi2 := math_radians L lat2 in
  let dphi := F.sub phi2 phi1 in
  let dlambda := math_radians L (F.sub lon2 lon1) in
  s1 ← math_sin L (F.div dphi (F.of_Z 2));
  p1 ← float_pow L s1 (F.of_Z 2);
  c1 ← math_cos L phi1;
  c2 ← math_cos L phi2;
  s2 ← math_sin L (F.div dlambda (F.of_Z 2));
  p2 ← float_pow L s2 (F.of_Z 2);
  let a := F.add p1 (F.mul (F.mul c1 c2) p2) in
  q1 ← math_sqrt a;
  q2 ← math_sqrt (F.sub (F.of_Z 1) a);
  Ok (F.mul (F.of_Z (2 * R)%Z) (math_atan2 L q1 q2)).

Definition read_graph (fs : files) (path : string) : result graph :=
  match fs !! path with
  | Some contents =>
      match read_graphml L contents with
      | Some g => Ok g
      | None => Err (SystemExit ("Error reading " ++ path))
      end
  | None => Err (SystemExit ("Error reading " ++ path))
  end.

(** *** XML builders *)

Definition build_network_root : network :=
  {| nodes := []; links := [] |}.

Definition add_node (root : network) (node_id : string) (x y : float) : network :=
  {| nodes := nodes root ++
       [ {| n_id := node_id; n_x := format_float L x; n_y := format_float L y |} ];
     links := links root |}.

(** The attribute dictionary [add_link] gives a <link> element. *)
Definition link_attr (link_id from_id to_id : string)
    (length freespeed : float) (modes : string)
    (capacity : float) (permlanes : Z) : link_elem :=
  {| l_id := link_id;
     l_from := from_id;
     l_to := to_id;
     l_length := format_fixed L 3 length;
     l_freespeed := format_fixed L 3 freespeed;
     l_capacity := format_fixed L 1 capacity;
     l_permlanes := pretty permlanes;
     l_modes := modes |}.

Definition add_link (root : network) (link_id from_id to_id : string)
    (length freespeed : float) (modes : string)
    (capacity : float) (permlanes : Z) : network :=
  let attr := link_attr link_id from_id to_id length freespeed modes
                capacity permlanes in
  {| nodes := nodes root; links := links root ++ [attr] |}.

(** [root.find(f"nodes/node[@id='{pid}']") is not None]. Without an
    apostrophe in [pid] the path selects the <node> children of <nodes>
    whose id attribute is [pid]. *)
Definition find_node (root : network) (pid : string) : result bool :=
  if contains_char "'"%char pid then find_quoted L root pid
  else Ok (existsb (fun n => String.eqb (n_id n) pid) (nodes root)).

(** *** graph → MATSim conversion *)

(** The longitude and latitude objects read off a node's attributes:
    [attrs.get("x") or attrs.get("lon") or attrs.get("lng")] and
    [attrs.get("y") or attrs.get("lat")]. *)
Definition node_lon (a : attrs) : option py_val :=
  py_or (py_or (a !! "x") (a !! "lon")) (a !! "lng").

Definition node_lat (a : attrs) : option py_val :=
  py_or (a !! "y") (a !! "lat").

(** One pass of the node loop. [transformer.transform] returns a pair of
    floats, so the second None test of the source never fires. *)
Definition node_step (node_prefix : string)
    (st : gmap string string * network) (nd : string * attrs)
    : result (gmap string string * network) :=
  let '(nid_map, root) := st in
  let '(nid, a) := nd in
  let pid := node_prefix +:+ nid in
  let nid_map := <[nid := pid]> nid_map in
  match node_lon a, node_lat a with
  | Some lon, Some lat =>
      flon ← py_float lon;
      flat ← py_float lat;
      let '(x, y) := transform L flon flat in
      found ← find_node root pid;
      Ok (nid_map, if (found : bool) then root else add_node root pid x y)
  | _, _ => Err (MissingCoordinate nid)
  end.

(** [float(edata.get("distance") or edata.get("length") or 0.0)], then the
    great-circle fallback when that is zero. *)
Definition edge_length (g : graph) (u v : string) (edata : attrs) : result float :=
  length ← py_float_opt
    (py_or (py_or (edata !! "distance") (edata !! "length")) (Some (PyFloat F.zero)));
  if F.eqb (length : float) F.zero then
    nu ← node_view (g_nodes g) u;
    xu ← getitem nu "x";
    lon1 ← py_float xu;
    nu' ← node_view (g_nodes g) u;
    yu ← getitem nu' "y";
    lat1 ← py_float yu;
    nv ← node_view (g_nodes g) v;
    xv ← getitem nv "x";
    lon2 ← py_float xv;
    nv' ← node_view (g_nodes g) v;
    yv ← getitem nv' "y";
    lat2 ← py_float yv;
    haversine lon1 lat1 lon2 lat2
  else Ok length.

(** [float(edata.get("walking_speed") or edata.get("maxspeed") or default_speed)] *)
Definition edge_freespeed (default_speed : float) (edata : attrs) : result float :=
  py_float_opt
    (py_or (py_or (edata !! "walking_speed") (edata !! "maxspeed"))
           (Some (PyFloat default_speed))).

Definition truthy_words : list string := ["true"; "1"; "yes"].

(** [str(oneway_flag).lower() in {"true", "1", "yes"}] *)
Definition flag_truthy (oneway_flag : py_val) : bool :=
  existsb (String.eqb (lower (py_str oneway_flag))) truthy_words.

(** [True if oneway_flag is None else str(oneway_flag).lower() in {...}] *)
Definition edge_oneway (edata : attrs) : bool :=
  match edata !! "oneway" with
  | None => true
  | Some oneway_flag => flag_truthy oneway_flag
  end.

(** One pass of the link loop; [seq] is the running link number. *)
Definition edge_step (g : graph) (link_prefix : string) (default_speed : float)
    (modes : string) (nid_map : gmap string string)
    (st : N * network) (e : string * string * attrs) : result (N * network) :=
  let '(seq, root) := st in
  let '(u, v, edata) := e in
  src ← getitem nid_map u;
  tgt ← getitem nid_map v;
  length ← edge_length g u v edata;
  freespeed ← edge_freespeed default_speed edata;
  let oneway := edge_oneway edata in
  let link_id := link_prefix +:+ pretty seq in
  let seq := (seq + 1)%N in
  let root := add_link root link_id src tgt length freespeed modes
                DEFAULT_CAPACITY DEFAULT_LANES in
  if negb oneway then
    let rev_id := link_prefix +:+ pretty seq in
    let seq := (seq + 1)%N in
    Ok (seq, add_link root rev_id tgt src length freespeed modes
               DEFAULT_CAPACITY DEFAULT_LANES)
  else Ok (seq, root).

Definition graph_to_matsim (g : graph) (root : network)
    (node_prefix link_prefix : string) (default_speed : float) (modes : string)
    : result network :=
  '(nid_map, root) ← foldM (node_step node_prefix) (∅, root) (g_nodes g);
  '(_, root) ← foldM (edge_step g link_prefix default_speed modes nid_map)
                 (0%N, root) (g_edges g);
  Ok root.

(** *** write XML + gz *)

(** Paths are the strings [pathlib] renders. [name] is the last component
    (empty for the root and for "."), [suffix] its last dotted part. *)
Fixpoint after_last_slash (s acc : string) : string :=
  match s with
  | EmptyString => acc
  | String c s' =>
      if Ascii.eqb c "/"%char then after_last_slash s' s' else after_last_slash s' acc
  end.

Definition path_name (p : string) : string :=
  if String.eqb p "." then "" else after_last_slash p p.

Fixpoint rfind_dot (s : string) (i : nat) (last : option nat) : option nat :=
  match s with
  | EmptyString => last
  | String c s' => rfind_dot s' (S i) (if Ascii.eqb c "."%char then Some i else last)
  end.

Definition path_suffix (p : string) : string :=
  let name := path_name p in
  match rfind_dot name 0 None with
  | Some i =>
      if (0 <? i)%nat && (i <? String.length name - 1)%nat
      then substring i (String.length name - i) name
      else ""
  | None => ""
  end.

(** [target.with_suffix(target.suffix + ".gz")]: the name grows by ".gz";
    a path with an empty name raises. *)
Definition with_gz_suffix (target : string) : result string :=
  if String.eqb (path_name target) "" then Err (ValueError "empty name")
  else Ok (target +:+ ".gz").

Definition output_paths (target : string) : result (string * string) :=
  if String.eqb (path_suffix target) ".gz" then
    Ok (substring 0 (String.length target - 3) target, target)
  else
    gz_path ← with_gz_suffix target;
    Ok (target, gz_path).

Definition xml_payload (root : network) : string :=
  XML_DECLARATION +:+ MATSim_DOCTYPE +:+ tostring L root.

Definition write_outputs (root : network) (target : string) (fs : files)
    : result files :=
  '(xml_path, gz_path) ← output_paths target;
  let xml_bytes := xml_payload root in
  let fs := <[xml_path := xml_bytes]> fs in
  let fs := <[gz_path := gzip_compress L gz_path xml_bytes]> fs in
  Ok fs.

(** *** entry point *)

(** The merge of the two graphs into one root, as [main] runs it. *)
Definition merge_graphs (drive_g walk_g : graph) : result network :=
  let root := build_network_root in
  root ← graph_to_matsim drive_g root "v_" "car_" CAR_DEFAULT_SPEED "car";
  graph_to_matsim walk_g root "p_" "walk_" WALK_DEFAULT_SPEED "walk".

(** [main]: the command line gives the three paths; the outcome is the
    exception, if any, and the file system the run leaves behind. *)
Definition main (drive_graphml walk_graphml output : string) (fs : files)
    : result unit * files :=
  let run :=
    drive_g ← read_graph fs drive_graphml;
    walk_g ← read_graph fs walk_graphml;
    root ← merge_graphs drive_g walk_g;
    write_outputs root output fs in
  match run with
  | Ok fs' => (Ok tt, fs')
  | Err e => (Err e, fs)
  end.

End Combine.

(** ** pretty-print helper (Py < 3.9)

    An ElementTree element: tag, attributes, text, tail and children. The
    helper mutates the tree in place; here it returns the tree it leaves. *)

Inductive element : Type :=
  | Element (tag : string) (attrib : list (string * string))
      (text tail : option string) (children : list element).

Definition elem_tag (e : element) : string :=
  match e with Element tag _ _ _ _ => tag end.
Definition elem_attrib (e : element) : list (string * string) :=
  match e with Element _ attrib _ _ _ => attrib end.
Definition elem_text (e : element) : option string :=
  match e with Element _ _ text _ _ => text end.
Definition elem_tail (e : element) : option string :=
  match e with Element _ _ _ tail _ => tail end.
Definition set_tail (tail : option string) (e : element) : element :=
  match e with Element tag attrib text _ children => Element tag attrib text tail children end.

(** [s * n] *)
Fixpoint str_times (s : string) (n : nat) : string :=
  match n with
  | O => ""
  | S n' => s +:+ str_times s n'
  end.

(** [pad = "\n" + "  " * level] *)
Definition indent_pad (level : nat) : string := newline +:+ str_times "  " level.

(** The element after the loop [for child in elem], that is the last child,
    is the one whose tail the helper sets next. *)
Fixpoint update_last {A : Type} (f : A -> A) (l : list A) : list A :=
  match l with
  | [] => []
  | [x] => [f x]
  | x :: l' => x :: update_last f l'
  end.

Section Indent.

(** [s.strip() == ""] on a str: white space is Unicode's, so the test is
    taken from outside. *)
Variable str_blank : string -> bool.

(** [not t or not t.strip()] *)
Definition blank (t : option string) : bool :=
  match t with
  | None => true
  | Some s => String.eqb s "" || str_blank s
  end.

(** [if not child.tail or not child.tail.strip(): child.tail = pad] *)
Definition pad_tail (pad : string) (child : element) : element :=
  if blank (elem_tail child) then set_tail (Some pad) child else child.

Fixpoint _indent (elem : element) (level : nat) : element :=
  match elem with
  | Element tag attrib text tail children =>
      let pad := indent_pad level in
      let text' :=
        match children with
        | [] => text
        | _ :: _ => if blank text then Some (pad +:+ "  ") else text
        end in
      let children' :=
        update_last (pad_tail pad) (map (fun child => _indent child (S level)) children) in
      let tail' :=
        if negb (Nat.eqb level 0) && blank tail then Some pad else tail in
      Element tag attrib text' tail' children'
  end.

(** The element without its layout: text and tails that are blank dropped,
    all the way down. *)
Fixpoint content (e : element) : element :=
  match e with
  | Element tag attrib text tail children =>
      Element tag attrib
        (if blank text then None else text)
        (if blank tail then None else tail)
        (map content children)
  end.

End Indent.

(** ** decompress_population.py

    The file system is keyed by absolute paths. [abspath] and [glob] belong
    to the operating system and are taken from outside, as is the current
    directory; gzip is the codec of [Libs]. *)

Module Decompress.

Inductive error : Type :=
  | FileNotFoundError (path : string)
  | ValueError (path : string)      (* File must have .xml.gz extension *)
  | GzipError                       (* whatever reading the gzip stream raises *)
  | ZeroDivisionError.

Inductive outcome (A : Type) : Type :=
  | Returned (a : A)
  | Raised (e : error).
Arguments Returned {A} a.
Arguments Raised {A} e.

(** [s.endswith(suffix)] *)
Definition endswith (s suffix : string) : bool :=
  (String.length suffix <=? String.length s)%nat &&
  String.eqb (substring (String.length s - String.length suffix)
                (String.length suffix) s) suffix.

(** [s[:-3]] *)
Definition drop_last3 (s : string) : string :=
  substring 0 (String.length s - 3) s.

(** [sorted] on a list of str. *)
Definition sorted (l : list string) : list string := merge_sort String.le l.

Section Tool.

Variable L : Libs.
Variable abspath : string -> string.
Variable getcwd : string.
(** [glob.glob(os.path.join(directory, "*.xml.gz"))] on the current files. *)
Variable glob_xml_gz : files -> string -> list string.

(** [decompress_file]. The path of the compressed file is made absolute,
    and so is the default output path derived from it; an output path given
    by the caller is resolved by the operating system. Opening the output
    for writing creates or truncates it before the first read of the
    compressed stream. The copy in chunks leaves the whole decompressed data
    in the output; the report that follows divides by the size of the
    output. Any exception removes the output file and is raised again. *)
Definition decompress_file (gz_filepath : string) (output_filepath : option string)
    (fs : files) : outcome string * files :=
  let gz_filepath := abspath gz_filepath in
  match fs !! gz_filepath with
  | None => (Raised (FileNotFoundError gz_filepath), fs)
  | Some _ =>
      if negb (endswith gz_filepath ".xml.gz")
      then (Raised (ValueError gz_filepath), fs)
      else
        let '(output_filepath, out) :=
          match output_filepath with
          | None => (drop_last3 gz_filepath, drop_last3 gz_filepath)
          | Some given => (given, abspath given)
          end in
        let fs := <[out := ""]> fs in
        match fs !! gz_filepath ≫= gzip_decompress L with
        | None => (Raised GzipError, delete out fs)
        | Some data =>
            let fs := <[out := data]> fs in
            if String.eqb data "" then (Raised ZeroDivisionError, delete out fs)
            else (Returned output_filepath, fs)
        end
  end.

(** The data [decompress_file] leaves in the default output for a path:
    the file is there, is named *.xml.gz, decompresses, and not to nothing. *)
Definition payload (fs : files) (gz_filepath : string) : option string :=
  let gz_filepath := abspath gz_filepath in
  if endswith gz_filepath ".xml.gz" then
    match fs !! gz_filepath ≫= gzip_decompress L with
    | Some data => if String.eqb data "" then None else Some data
    | None => None
    end
  else None.

(** [list_gz_files]: the sorted matches. *)
Definition list_gz_files (directory : option string) (fs : files) : list string :=
  let directory := default getcwd directory in
  sorted (glob_xml_gz fs directory).

(** [decompress_all]: every match in sorted order, a failure being reported
    and passed over; the result is the count of successes the function
    prints and the files it leaves. *)
Definition decompress_all (directory : option string) (fs : files) : nat * files :=
  let directory := default getcwd directory in
  let gz_files := glob_xml_gz fs directory in
  foldl (fun '(success_count, fs) gz_file =>
           match decompress_file gz_file None fs with
           | (Returned _, fs') => (S success_count, fs')
           | (Raised _, fs') => (success_count, fs')
           end)
        (0, fs) (sorted gz_files).

End Tool.

End Decompress.

(** ** A concrete set of libraries, for running the model

    Simple stand-ins with the right types: they are used to evaluate the
    definitions on examples, never in the statements of the general results. *)

Module Sample.

Fixpoint digits_value (s : string) (acc : Z) : option Z :=
  match s with
  | EmptyString => Some acc
  | String c s' =>
      let n := nat_of_ascii c in
      if (48 <=? n)%nat && (n <=? 57)%nat
      then digits_value s' (10 * acc + Z.of_nat (n - 48))%Z
      else None
  end.

(** Unsigned decimal integers only. *)
Definition parse_float (s : string) : option float :=
  match s with
  | EmptyString => None
  | _ => F.of_Z <$> digits_value s 0%Z
  end.

(** Mantissa and exponent in decimal. *)
Definition show_float (f : float) : string :=
  match f with
  | S754_zero s => if s then "-0.0" else "0.0"
  | S754_infinity s => if s then "-inf" else "inf"
  | S754_nan => "nan"
  | S754_finite s m e =>
      (if s then "-" else "") +:+ pretty (Zpos m) +:+ "p" +:+ pretty e
  end.

Definition show_node (n : node_elem) : string :=
  "<node id=" +:+ dquote +:+ n_id n +:+ dquote +:+
  " x=" +:+ dquote +:+ n_x n +:+ dquote +:+
  " y=" +:+ dquote +:+ n_y n +:+ dquote +:+ " />".

Definition show_link (l : link_elem) : string :=
  "<link id=" +:+ dquote +:+ l_id l +:+ dquote +:+
  " from=" +:+ dquote +:+ l_from l +:+ dquote +:+
  " to=" +:+ dquote +:+ l_to l +:+ dquote +:+
  " length=" +:+ dquote +:+ l_length l +:+ dquote +:+
  " freespeed=" +:+ dquote +:+ l_freespeed l +:+ dquote +:+
  " capacity=" +:+ dquote +:+ l_capacity l +:+ dquote +:+
  " permlanes=" +:+ dquote +:+ l_permlanes l +:+ dquote +:+
  " modes=" +:+ dquote +:+ l_modes l +:+ dquote +:+ " />".

Definition show_network (r : network) : string :=
  "<network><nodes>" +:+ String.concat "" (show_node <$> nodes r) +:+
  "</nodes><links>" +:+ String.concat "" (show_link <$> links r) +:+
  "</links></network>".

(** A codec that stores the data behind a two-byte header. *)
Definition store (path data : string) : string := "GZ" +:+ data.
Definition unstore (s : string) : option string :=
  match s with
  | String "G" (String "Z" data) => Some data
  | _ => None
  end.

Definition pt (lon lat : float) : attrs :=
  {[ "lon" := PyFloat lon; "lat" := PyFloat lat ]}.
Definition xy (x y : float) : attrs :=
  {[ "x" := PyFloat x; "y" := PyFloat y ]}.

(** The drive graph of the end-to-end scenario: nodes A and B given by
    lon/lat, one edge A -> B without attributes. *)
Definition scenario_graph (edata : attrs) : graph :=
  {| g_nodes := [ ("A", pt (F.of_Z 127) (F.dec 375 1));
                  ("B", pt (F.dec 12701 2) (F.dec 375 1)) ];
     g_edges := [ ("A", "B", edata) ] |}.

(** The same two nodes given by x/y. *)
Definition xy_graph (edata : attrs) : graph :=
  {| g_nodes := [ ("A", xy (F.of_Z 127) (F.dec 375 1));
                  ("B", xy (F.dec 12701 2) (F.dec 375 1)) ];
     g_edges := [ ("A", "B", edata) ] |}.

(** Edge attributes used in the examples. *)
Definition both_lengths : attrs :=
  {[ "distance" := PyFloat (F.of_Z 5); "length" := PyFloat (F.of_Z 7) ]}.
Definition both_speeds : attrs :=
  {[ "walking_speed" := PyFloat (F.of_Z 1); "maxspeed" := PyFloat (F.of_Z 20) ]}.
Definition two_way : attrs :=
  {[ "oneway" := PyStr "false"; "length" := PyFloat (F.of_Z 100) ]}.
Definition maybe_way : attrs :=
  {[ "oneway" := PyStr "maybe"; "length" := PyFloat (F.of_Z 100) ]}.
Definition int_length : attrs := {[ "length" := PyInt 250 ]}.
Definition equator : attrs :=
  {[ "x" := PyFloat (F.of_Z 127); "lat" := PyFloat F.zero ]}.
Definition names : gmap string string := {[ "A" := "v_A"; "B" := "v_B" ]}.

Definition empty_graph : graph := {| g_nodes := []; g_edges := [] |}.

Definition drive_graph : graph := xy_graph ∅.
Definition walk_graph : graph :=
  xy_graph {[ "oneway" := PyStr "false"; "walking_speed" := PyFloat (F.of_Z 1) ]}.
Definition nocoord_graph : graph :=
  {| g_nodes := [ ("A", xy (F.of_Z 127) (F.dec 375 1)); ("C", ∅) ];
     g_edges := [] |}.

Definition parse_graph (contents : string) : option graph :=
  if String.eqb contents "drive" then Some drive_graph
  else if String.eqb contents "walk" then Some walk_graph
  else if String.eqb contents "nocoord" then Some nocoord_graph
  else None.

Definition libs : Libs :=
  {| math_sin := fun x => Ok x;
     math_cos := fun x => Ok (F.of_Z 1);
     math_atan2 := fun y x => y;
     math_radians := fun x => F.div x (F.of_Z 57);
     float_pow := fun x y => Ok (F.mul x x);
     float_of_str := parse_float;
     transform := fun lon lat => (lon, lat);
     format_float := show_float;
     format_fixed := fun n x => show_float x;
     find_quoted := fun root pid => Err (XPathError pid);
     tostring := show_network;
     gzip_compress := store;
     gzip_decompress := unstore;
     read_graphml := parse_graph |}.

(** The network merged from the two sample graphs. *)
Definition merged : network :=
  Eval vm_compute in
    match merge_graphs libs drive_graph walk_graph with
    | Ok root => root
    | Err _ => build_network_root
    end.

(** The files of a run that writes the empty network to net.xml. *)
Definition written : files :=
  <[ "net.xml.gz" := store "net.xml.gz" (xml_payload libs build_network_root) ]>
    (<[ "net.xml" := xml_payload libs build_network_root ]> ∅).

Definition disk : files := {[ "drive.graphml" := "drive";
                              "walk.graphml" := "walk";
                              "bad.graphml" := "nocoord" ]}.

(** White space of the ASCII range. *)
Definition ascii_space (c : ascii) : bool :=
  let n := nat_of_ascii c in
  (n =? 32)%nat || ((9 <=? n)%nat && (n <=? 13)%nat).

Fixpoint ascii_blank (s : string) : bool :=
  match s with
  | EmptyString => true
  | String c s' => ascii_space c && ascii_blank s'
  end.

(** The tree of a network with two nodes and no link, before layout, and a
    paragraph with text of its own. *)
Definition plain_tree : element :=
  Element "network" [] None None
    [ Element "nodes" [] None None
        [ Element "node" [("id", "v_A")] None None [];
          Element "node" [("id", "v_B")] None None [] ];
      Element "links" [] None None [] ].

Definition mixed_tree : element :=
  Element "p" [] (Some "Hello ") None
    [ Element "b" [] (Some "world") (Some "!") []; Element "br" [] None None [] ].

(** A directory of compressed populations: one good file, one that is not
    gzip, one whose payload is empty, and a plain file left by an earlier
    run. Paths are absolute already. *)
Definition pop_disk : files :=
  {[ "/pop/a.xml.gz" := "GZ<population/>";
     "/pop/b.xml.gz" := "not gzip";
     "/pop/c.xml.gz" := "GZ";
     "/pop/b.xml" := "stale" ]}.

Definition pop_glob (fs : files) (directory : string) : list string :=
  if String.eqb directory "/pop"
  then [ "/pop/c.xml.gz"; "/pop/a.xml.gz"; "/pop/b.xml.gz" ]
  else [].

(** The files of a run that writes the empty network to /out/net.xml. *)
Definition written_out : files :=
  <[ "/out/net.xml.gz" := store "/out/net.xml.gz" (xml_payload libs build_network_root) ]>
    (<[ "/out/net.xml" := xml_payload libs build_network_root ]> ∅).

(** The codec reading an empty file as no data, as the gzip reader does. *)
Definition unstore_or_empty (s : string) : option string :=
  match s with
  | EmptyString => Some ""
  | _ => unstore s
  end.

Definition libs_gzip : Libs :=
  {| math_sin := math_sin libs;
     math_cos := math_cos libs;
     math_atan2 := math_atan2 libs;
     math_radians := math_radians libs;
     float_pow := float_pow libs;
     float_of_str := float_of_str libs;
     transform := transform libs;
     format_float := format_float libs;
     format_fixed := format_fixed libs;
     find_quoted := find_quoted libs;
     tostring := tostring libs;
     gzip_compress := gzip_compress libs;
     gzip_decompress := unstore_or_empty;
     read_graphml := read_graphml libs |}.

(** The walk graph converted alone, and the drive graph converted once more
    into the merged network. *)
Definition walk_only : network :=
  Eval vm_compute in
    match graph_to_matsim libs walk_graph build_network_root "p_" "walk_"
            WALK_DEFAULT_SPEED "walk" with
    | Ok root => root
    | Err _ => build_network_root
    end.

Definition merged_again : network :=
  Eval vm_compute in
    match graph_to_matsim libs drive_graph merged "v_" "car_"
            CAR_DEFAULT_SPEED "car" with
    | Ok root => root
    | Err _ => build_network_root
    end.

(** Graphs with a number that is not one: a coordinate spelled out, a speed
    with its unit. *)
Definition text_coord_graph : graph :=
  {| g_nodes := [ ("A", {[ "x" := PyStr "east"; "y" := PyFloat (F.dec 375 1) ]}) ];
     g_edges := [] |}.
Definition mph_edge : attrs := {[ "maxspeed" := PyStr "30 mph" ]}.
Definition mph_graph : graph := xy_graph mph_edge.
Definition negative_length : attrs := {[ "distance" := PyFloat (F.of_Z (-5)) ]}.
Definition upper_case_way : attrs :=
  {[ "oneway" := PyStr "TRUE"; "length" := PyFloat (F.of_Z 100) ]}.

Definition parse_more (contents : string) : option graph :=
  if String.eqb contents "text" then Some text_coord_graph
  else if String.eqb contents "mph" then Some mph_graph
  else parse_graph contents.

Definition libs_more : Libs :=
  {| math_sin := math_sin libs;
     math_cos := math_cos libs;
     math_atan2 := math_atan2 libs;
     math_radians := math_radians libs;
     float_pow := float_pow libs;
     float_of_str := float_of_str libs;
     transform := transform libs;
     format_float := format_float libs;
     format_fixed := format_fixed libs;
     find_quoted := find_quoted libs;
     tostring := tostring libs;
     gzip_compress := gzip_compress libs;
     gzip_decompress := gzip_decompress libs;
     read_graphml := parse_more |}.

Definition disk_more : files := {[ "drive.graphml" := "drive";
                                   "walk.graphml" := "walk";
                                   "text.graphml" := "text";
                                   "mph.graphml" := "mph" ]}.

End Sample.

(** ** Vocabulary of the statements *)

(** The number of links the link loop emits for an edge. *)
Definition links_emitted (L : Libs) (e : string * string * attrs) : nat :=
  if edge_oneway L e.2 then 1 else 2.

(** * Properties *)

(** ** The result monad *)

Lemma bind_Ok {A B : Type} (a : A) (k : A -> result B) : (Ok a ≫= k) = k a.
Proof. reflexivity. Qed.

Lemma bind_Err {A B : Type} (e : py_error) (k : A -> result B) :
  (Err e ≫= k) = Err e.
Proof. reflexivity. Qed.

Lemma bind_Ok_inv {A B : Type} (m : result A) (k : A -> result B) (b : B) :
  m ≫= k = Ok b -> exists a, m = Ok a /\ k a = Ok b.
Proof. destruct m as [a|e]; simpl; [eauto | discriminate]. Qed.

Lemma foldM_app {A S : Type} (f : S -> A -> result S) (s : S) (l1 l2 : list A) :
  foldM f s (l1 ++ l2) = foldM f s l1 ≫= fun s' => foldM f s' l2.
Proof.
  revert s. induction l1 as [|a l1 IH]; intros s; simpl; [reflexivity|].
  destruct (f s a) as [s'|e]; simpl; [apply IH | reflexivity].
Qed.

Lemma getitem_Some {V : Type} (d : gmap string V) (key : string) (v : V) :
  d !! key = Some v -> getitem d key = Ok v.
Proof. intros H. unfold getitem. rewrite H. reflexivity. Qed.

(** ** Floats: what the conditions of the code need *)

Lemma positive_not_zero (x : float) : F.ltb F.zero x = true -> F.eqb x F.zero = false.
Proof. destruct x as [s|s| |s m e]; try destruct s; simpl; discriminate || reflexivity. Qed.

Lemma positive_truthy (x : float) : F.ltb F.zero x = true -> truthy (PyFloat x) = true.
Proof. intros H. simpl. rewrite (positive_not_zero x H). reflexivity. Qed.

Lemma zero_eqb_zero : F.eqb F.zero F.zero = true.
Proof. reflexivity. Qed.

Section Numbers.
Variable L : Libs.

Lemma numeric_positive_truthy (v : py_val) (x : float) :
  numeric v = true -> py_float L v = Ok x -> F.ltb F.zero x = true ->
  truthy v = true.
Proof.
  destruct v as [s|z|f|b]; simpl; try discriminate; intros _ Hf Hpos.
  - destruct (Z.eqb_spec z 0) as [->|]; [|reflexivity].
    vm_compute in Hf. injection Hf as <-. discriminate Hpos.
  - injection Hf as ->. rewrite (positive_not_zero x Hpos). reflexivity.
Qed.

(** [a or b] when [a] is truthy, and when it is absent or falsy. *)
Lemma py_or_truthy (a b : option py_val) : truthy_opt a = true -> py_or a b = a.
Proof. intros H. unfold py_or. rewrite H. reflexivity. Qed.

Lemma py_or_falsy (a b : option py_val) : truthy_opt a = false -> py_or a b = b.
Proof. intros H. unfold py_or. rewrite H. reflexivity. Qed.
End Numbers.

(** ** One source edge: length, speed and direction *)

Section Edges.
Variable L : Libs.
Variables (g : graph) (link_prefix : string) (default_speed : float) (modes : string).

(** What one pass of the link loop does once its lookups succeed. *)
Lemma edge_step_resolved nid_map seq root u v edata src tgt len spd :
  nid_map !! u = Some src -> nid_map !! v = Some tgt ->
  edge_length L g u v edata = Ok len ->
  edge_freespeed L default_speed edata = Ok spd ->
  edge_step L g link_prefix default_speed modes nid_map (seq, root) (u, v, edata) =
    let fwd := link_attr L (link_prefix +:+ pretty seq) src tgt len spd modes
                 DEFAULT_CAPACITY DEFAULT_LANES in
    let rev := link_attr L (link_prefix +:+ pretty (seq + 1)%N) tgt src len spd modes
                 DEFAULT_CAPACITY DEFAULT_LANES in
    if edge_oneway L edata
    then Ok ((seq + 1)%N, {| nodes := nodes root; links := links root ++ [fwd] |})
    else Ok ((seq + 2)%N, {| nodes := nodes root; links := links root ++ [fwd; rev] |}).
Proof.
  intros Hu Hv Hlen Hspd. unfold edge_step.
  rewrite (getitem_Some _ _ _ Hu), (getitem_Some _ _ _ Hv), Hlen, Hspd. simpl.
  destruct (edge_oneway L edata); simpl; [reflexivity|].
  unfold add_link; simpl. rewrite <- app_assoc. simpl.
  replace (seq + 1 + 1)%N with (seq + 2)%N by lia. reflexivity.
Qed.

(** The flag is the only attribute the direction test reads, and the
    length and the speed do not read it. *)
Lemma edge_length_oneway_irrelevant u v edata flag :
  edge_length L g u v (<["oneway" := flag]> edata) = edge_length L g u v edata.
Proof. unfold edge_length. rewrite !lookup_insert_ne by discriminate. reflexivity. Qed.

Lemma edge_freespeed_oneway_irrelevant edata flag :
  edge_freespeed L default_speed (<["oneway" := flag]> edata) =
  edge_freespeed L default_speed edata.
Proof. unfold edge_freespeed. rewrite !lookup_insert_ne by discriminate. reflexivity. Qed.

Lemma edge_oneway_flag edata flag :
  edata !! "oneway" = Some flag -> edge_oneway L edata = flag_truthy L flag.
Proof. intros H. unfold edge_oneway. rewrite H. reflexivity. Qed.

(** A pass that succeeds emits one link or two, numbered from [seq]. *)
Lemma edge_step_Ok_inv nid_map seq root u v edata seq' root' :
  edge_step L g link_prefix default_speed modes nid_map (seq, root) (u, v, edata)
    = Ok (seq', root') ->
  exists src tgt len spd,
    nid_map !! u = Some src /\ nid_map !! v = Some tgt /\
    edge_length L g u v edata = Ok len /\
    edge_freespeed L default_speed edata = Ok spd.
Proof.
  unfold edge_step, getitem. intros H.
  destruct (nid_map !! u) as [src|]; [|discriminate].
  destruct (nid_map !! v) as [tgt|]; [|discriminate].
  simpl in H.
  destruct (edge_length L g u v edata) as [len|]; [|discriminate].
  destruct (edge_freespeed L default_speed edata) as [spd|]; [|discriminate].
  exists src, tgt, len, spd. auto.
Qed.

(** C1. An edge without a oneway attribute yields exactly one link, from
    the source node to the target node. An edge whose oneway attribute is
    present and is not one of the truthy words (as for "false", "0", False
    and 0) yields exactly two links: the second has from and to swapped and
    the same length, freespeed, modes, capacity and permlanes as the first. *)
Theorem C1_oneway_expansion nid_map seq root u v edata src tgt len spd :
  nid_map !! u = Some src -> nid_map !! v = Some tgt ->
  edge_length L g u v edata = Ok len ->
  edge_freespeed L default_speed edata = Ok spd ->
  let fwd := link_attr L (link_prefix +:+ pretty seq) src tgt len spd modes
               DEFAULT_CAPACITY DEFAULT_LANES in
  let rev := link_attr L (link_prefix +:+ pretty (seq + 1)%N) tgt src len spd modes
               DEFAULT_CAPACITY DEFAULT_LANES in
  let run := edge_step L g link_prefix default_speed modes nid_map
               (seq, root) (u, v, edata) in
  (edata !! "oneway" = None ->
     run = Ok ((seq + 1)%N,
               {| nodes := nodes root; links := links root ++ [fwd] |}))
  /\ (forall flag, edata !! "oneway" = Some flag -> flag_truthy L flag = false ->
     run = Ok ((seq + 2)%N,
               {| nodes := nodes root; links := links root ++ [fwd; rev] |}))
  /\ (l_from fwd = src /\ l_to fwd = tgt)
  /\ (l_from rev = l_to fwd /\ l_to rev = l_from fwd /\
      l_length rev = l_length fwd /\ l_freespeed rev = l_freespeed fwd /\
      l_modes rev = l_modes fwd /\ l_capacity rev = l_capacity fwd /\
      l_permlanes rev = l_permlanes fwd)
  /\ (flag_truthy L (PyStr "false") = false /\ flag_truthy L (PyStr "0") = false /\
      flag_truthy L (PyBool false) = false /\ flag_truthy L (PyInt 0) = false).
Proof.
  intros Hu Hv Hlen Hspd fwd rev run.
  pose proof (edge_step_resolved nid_map seq root u v edata src tgt len spd
                Hu Hv Hlen Hspd) as Hrun.
  fold run in Hrun. repeat split.
  - intros Hnone. rewrite Hrun. unfold edge_oneway. rewrite Hnone. reflexivity.
  - intros flag Hflag Hfalse. rewrite Hrun, (edge_oneway_flag _ _ Hflag), Hfalse.
    reflexivity.
Qed.

(** C2. A oneway attribute that is present with any value other than
    "true", "1" or "yes" (in any letter case) is handled as the value
    "false" is: the pass behaves exactly as on the same edge with
    oneway="false", and when it succeeds it has emitted two links. *)
Theorem C2_other_values_bidirectional nid_map seq root u v edata flag :
  edata !! "oneway" = Some flag -> flag_truthy L flag = false ->
  let run := edge_step L g link_prefix default_speed modes nid_map (seq, root) in
  run (u, v, edata) = run (u, v, <["oneway" := PyStr "false"]> edata)
  /\ (forall seq' root', run (u, v, edata) = Ok (seq', root') ->
        seq' = (seq + 2)%N /\ nodes root' = nodes root /\
        exists fwd rev, links root' = links root ++ [fwd; rev])
  /\ (flag_truthy L (PyStr "no") = false /\ flag_truthy L (PyStr "maybe") = false).
Proof.
  intros Hflag Hfalse run.
  assert (Hone : edge_oneway L edata = false)
    by (rewrite (edge_oneway_flag _ _ Hflag); exact Hfalse).
  split; [|split; [|split; reflexivity]].
  - unfold run, edge_step.
    rewrite edge_length_oneway_irrelevant, edge_freespeed_oneway_irrelevant, Hone.
    unfold edge_oneway. rewrite lookup_insert_eq. reflexivity.
  - intros seq' root' Hok.
    destruct (edge_step_Ok_inv _ _ _ _ _ _ _ _ Hok)
      as (src & tgt & len & spd & Hu & Hv & Hlen & Hspd).
    unfold run in Hok.
    rewrite (edge_step_resolved _ _ _ _ _ _ _ _ _ _ Hu Hv Hlen Hspd), Hone in Hok.
    injection Hok as <- <-. simpl. eauto.
Qed.

(** C4, as the code has it. The speed of an edge is its walking_speed when
    that is present and truthy, else its maxspeed when that is present and
    truthy, else the default of the graph being converted; the lookup is the
    same for both graphs. The drive graph is converted with the default
    15.0 and the walk graph with 1.4: a walk edge with walking_speed=1.0
    gets 1.0 and a drive edge without speed attributes gets 15.0. *)
Theorem C4_speed_resolution edata :
  (forall w, edata !! "walking_speed" = Some w -> truthy w = true ->
     edge_freespeed L default_speed edata = py_float L w)
  /\ (forall m, truthy_opt (edata !! "walking_speed") = false ->
       edata !! "maxspeed" = Some m -> truthy m = true ->
       edge_freespeed L default_speed edata = py_float L m)
  /\ (truthy_opt (edata !! "walking_speed") = false ->
      truthy_opt (edata !! "maxspeed") = false ->
      edge_freespeed L default_speed edata = Ok default_speed)
  /\ (forall drive_g walk_g,
       merge_graphs L drive_g walk_g =
         graph_to_matsim L drive_g build_network_root "v_" "car_" (F.of_Z 15) "car"
           ≫= fun root => graph_to_matsim L walk_g root "p_" "walk_" (F.dec 14 1) "walk")
  /\ edge_freespeed L WALK_DEFAULT_SPEED {[ "walking_speed" := PyFloat (F.of_Z 1) ]}
       = Ok (F.of_Z 1)
  /\ edge_freespeed L CAR_DEFAULT_SPEED ∅ = Ok (F.of_Z 15)
  /\ edge_freespeed L WALK_DEFAULT_SPEED ∅ = Ok (F.dec 14 1).
Proof.
  unfold edge_freespeed. repeat split.
  - intros w Hw Ht. rewrite Hw. unfold py_or; simpl. rewrite Ht. simpl. rewrite Ht.
    reflexivity.
  - intros m Hw Hm Ht. unfold py_or at 2. rewrite Hw, Hm. unfold py_or. simpl.
    rewrite Ht. reflexivity.
  - intros Hw Hm. unfold py_or at 2. rewrite Hw. unfold py_or. rewrite Hm.
    reflexivity.
Qed.

(** C5, as the code has it. A distance attribute holding a number L > 0 is
    the length of the link; a length attribute holding a number L > 0 is the
    length of the link when the distance attribute is absent or falsy. The
    endpoints are not looked at. *)
Theorem C5_explicit_length_verbatim u v edata val x :
  numeric val = true -> py_float L val = Ok x -> F.ltb F.zero x = true ->
  edata !! "distance" = Some val \/
    (truthy_opt (edata !! "distance") = false /\ edata !! "length" = Some val) ->
  edge_length L g u v edata = Ok x.
Proof.
  intros Hnum Hval Hpos Hattr.
  pose proof (numeric_positive_truthy L val x Hnum Hval Hpos) as Ht.
  assert (Hor : py_or (py_or (edata !! "distance") (edata !! "length"))
                  (Some (PyFloat F.zero)) = Some val).
  { destruct Hattr as [Hd | [Hd Hl]].
    - rewrite Hd. unfold py_or; simpl. rewrite Ht. simpl. rewrite Ht. reflexivity.
    - unfold py_or at 2. rewrite Hd, Hl. unfold py_or. simpl. rewrite Ht.
      reflexivity. }
  unfold edge_length. rewrite Hor. simpl. rewrite Hval. simpl.
  rewrite (positive_not_zero x Hpos). reflexivity.
Qed.

End Edges.

Lemma C1_oneway_expansion_witness :
  edge_step Sample.libs Sample.empty_graph "car_" CAR_DEFAULT_SPEED "car" Sample.names
    (0%N, build_network_root) ("A", "B", Sample.two_way)
  = Ok (2%N,
        {| nodes := [];
           links :=
             [ link_attr Sample.libs "car_0" "v_A" "v_B" (F.of_Z 100) CAR_DEFAULT_SPEED
                 "car" DEFAULT_CAPACITY DEFAULT_LANES;
               link_attr Sample.libs "car_1" "v_B" "v_A" (F.of_Z 100) CAR_DEFAULT_SPEED
                 "car" DEFAULT_CAPACITY DEFAULT_LANES ] |}).
Proof.
  destruct (C1_oneway_expansion Sample.libs Sample.empty_graph "car_" CAR_DEFAULT_SPEED
              "car" Sample.names 0%N build_network_root "A" "B" Sample.two_way
              "v_A" "v_B" (F.of_Z 100) CAR_DEFAULT_SPEED)
    as (_ & Htwo & _); [vm_compute; reflexivity ..|].
  exact (Htwo (PyStr "false") eq_refl eq_refl).
Defined.

Lemma C2_other_values_bidirectional_witness :
  edge_step Sample.libs Sample.empty_graph "walk_" WALK_DEFAULT_SPEED "walk" Sample.names
    (0%N, build_network_root) ("A", "B", Sample.maybe_way)
  = edge_step Sample.libs Sample.empty_graph "walk_" WALK_DEFAULT_SPEED "walk" Sample.names
    (0%N, build_network_root)
    ("A", "B", <["oneway" := PyStr "false"]> Sample.maybe_way).
Proof.
  destruct (C2_other_values_bidirectional Sample.libs Sample.empty_graph "walk_"
              WALK_DEFAULT_SPEED "walk" Sample.names 0%N build_network_root "A" "B"
              Sample.maybe_way (PyStr "maybe"))
    as (Hsame & _); [vm_compute; reflexivity ..|].
  exact Hsame.
Defined.

(** On a drive edge that carries both attributes the pedestrian attribute
    decides the speed, not the posted speed. *)
Lemma C4_counterexample :
  Sample.both_speeds !! "maxspeed" = Some (PyFloat (F.of_Z 20)) /\
  edge_freespeed Sample.libs CAR_DEFAULT_SPEED Sample.both_speeds = Ok (F.of_Z 1) /\
  F.of_Z 1 <> F.of_Z 20.
Proof. vm_compute. repeat split; discriminate. Qed.

(** The length attribute of an edge that also has a distance is not used. *)
Lemma C5_counterexample :
  Sample.both_lengths !! "length" = Some (PyFloat (F.of_Z 7)) /\
  F.ltb F.zero (F.of_Z 7) = true /\
  edge_length Sample.libs Sample.empty_graph "A" "B" Sample.both_lengths = Ok (F.of_Z 5) /\
  F.of_Z 5 <> F.of_Z 7.
Proof. vm_compute. repeat split; discriminate. Qed.

Lemma C5_explicit_length_verbatim_witness :
  edge_length Sample.libs Sample.empty_graph "A" "B" Sample.int_length = Ok (F.of_Z 250).
Proof.
  apply (C5_explicit_length_verbatim Sample.libs Sample.empty_graph "A" "B"
           Sample.int_length (PyInt 250) (F.of_Z 250));
    [reflexivity | reflexivity | reflexivity | right; split; reflexivity].
Defined.


(** ** The great-circle fallback *)

Section Fallback.
Variable L : Libs.
Variable g : graph.

(** With distance and length absent or falsy the explicit length is 0.0. *)
Lemma no_explicit_length (edata : attrs) :
  truthy_opt (edata !! "distance") = false ->
  truthy_opt (edata !! "length") = false ->
  py_float_opt L
    (py_or (py_or (edata !! "distance") (edata !! "length")) (Some (PyFloat F.zero)))
  = Ok F.zero.
Proof.
  intros Hd Hl. unfold py_or at 2. rewrite Hd. unfold py_or. rewrite Hl. reflexivity.
Qed.

(** X11. Endpoints given by x and y: the length is the haversine distance. *)
Lemma edge_length_fallback_xy u v edata au av xu yu xv yv lon1 lat1 lon2 lat2 :
  truthy_opt (edata !! "distance") = false ->
  truthy_opt (edata !! "length") = false ->
  node_view (g_nodes g) u = Ok au -> node_view (g_nodes g) v = Ok av ->
  au !! "x" = Some xu -> au !! "y" = Some yu ->
  av !! "x" = Some xv -> av !! "y" = Some yv ->
  py_float L xu = Ok lon1 -> py_float L yu = Ok lat1 ->
  py_float L xv = Ok lon2 -> py_float L yv = Ok lat2 ->
  edge_length L g u v edata = haversine L lon1 lat1 lon2 lat2.
Proof.
  intros Hd Hl Hu Hv Hxu Hyu Hxv Hyv Hlon1 Hlat1 Hlon2 Hlat2.
  unfold edge_length. rewrite (no_explicit_length edata Hd Hl). simpl.
  rewrite Hu, Hv. simpl.
  rewrite (getitem_Some _ _ _ Hxu), (getitem_Some _ _ _ Hyu). simpl.
  rewrite Hlon1. simpl. rewrite Hlat1. simpl.
  rewrite (getitem_Some _ _ _ Hxv), (getitem_Some _ _ _ Hyv). simpl.
  rewrite Hlon2. simpl. rewrite Hlat2. reflexivity.
Qed.

(** C3, where the code departs from it. The fallback indexes the endpoint's
    attributes with "x" (and "y") only: for an endpoint without an "x"
    attribute, such as one given by lon and lat, an edge without explicit
    length raises KeyError instead of getting the haversine distance. *)
Theorem C3_fallback_reads_only_xy u v edata au :
  truthy_opt (edata !! "distance") = false ->
  truthy_opt (edata !! "length") = false ->
  node_view (g_nodes g) u = Ok au ->
  au !! "x" = None ->
  edge_length L g u v edata = Err (KeyError "x").
Proof.
  intros Hd Hl Hu Hx. unfold edge_length.
  rewrite (no_explicit_length edata Hd Hl). simpl.
  rewrite Hu. simpl. unfold getitem. rewrite Hx. reflexivity.
Qed.

End Fallback.

Lemma C3_fallback_reads_only_xy_witness :
  node_lon (Sample.pt (F.of_Z 127) (F.dec 375 1)) = Some (PyFloat (F.of_Z 127)) /\
  node_lat (Sample.pt (F.of_Z 127) (F.dec 375 1)) = Some (PyFloat (F.dec 375 1)) /\
  edge_length Sample.libs (Sample.scenario_graph ∅) "A" "B" ∅ = Err (KeyError "x").
Proof.
  split; [reflexivity | split; [reflexivity |]].
  apply (C3_fallback_reads_only_xy Sample.libs (Sample.scenario_graph ∅) "A" "B" ∅
           (Sample.pt (F.of_Z 127) (F.dec 375 1))); reflexivity.
Defined.

(** The end-to-end scenario of the specification (nodes A and B given by lon
    and lat, one edge without attributes) does not produce a network. *)
Lemma scenario_lonlat_raises (L : Libs) :
  merge_graphs L (Sample.scenario_graph ∅) Sample.empty_graph = Err (KeyError "x").
Proof.
  destruct L as [sin cos atan2 radians pow parse tf fmt fmtn findq tostr gz gunz rd].
  vm_compute.
  destruct (tf _ _) as [x1 y1]. vm_compute.
  destruct (tf _ _) as [x2 y2]. reflexivity.
Qed.

(** The same scenario with the nodes given by x and y: two nodes and the
    link car_0 from v_A to v_B. *)
Example scenario_xy_runs :
  (fun r => match r with
            | Ok root => Some (n_id <$> nodes root,
                               (fun l => (l_id l, l_from l, l_to l)) <$> links root)
            | Err _ => None
            end)
    (merge_graphs Sample.libs (Sample.xy_graph ∅) Sample.empty_graph)
  = Some (["v_A"; "v_B"], [("car_0", "v_A", "v_B")]).
Proof. vm_compute. reflexivity. Qed.

(** ** One source node: coordinates *)

Lemma py_or_None (a b : option py_val) :
  py_or a b = None <-> truthy_opt a = false /\ b = None.
Proof.
  unfold py_or. destruct (truthy_opt a) eqn:Ha.
  - split; [|intros [? _]; discriminate].
    intros ->. discriminate Ha.
  - tauto.
Qed.

Lemma node_lon_None (a : attrs) :
  node_lon a = None <->
  a !! "lng" = None /\ truthy_opt (a !! "x") = false /\ truthy_opt (a !! "lon") = false.
Proof.
  unfold node_lon. rewrite py_or_None. split.
  - intros [Hxl Hlng]. split; [exact Hlng|].
    unfold py_or in Hxl. destruct (truthy_opt (a !! "x")) eqn:Hx.
    + rewrite Hx in Hxl. discriminate.
    + auto.
  - intros (Hlng & Hx & Hlon). split; [|exact Hlng].
    unfold py_or. rewrite Hx. exact Hlon.
Qed.

Lemma node_lat_None (a : attrs) :
  node_lat a = None <-> a !! "lat" = None /\ truthy_opt (a !! "y") = false.
Proof. unfold node_lat. rewrite py_or_None. tauto. Qed.

Section Nodes.
Variable L : Libs.

Lemma node_step_missing node_prefix st nid a :
  node_lon a = None \/ node_lat a = None ->
  node_step L node_prefix st (nid, a) = Err (MissingCoordinate nid).
Proof.
  intros H. unfold node_step. destruct st as [nid_map root].
  destruct H as [-> | H]; [reflexivity|].
  rewrite H. destruct (node_lon a); reflexivity.
Qed.

(** A node whose two coordinate objects convert is looked up and, unless an
    element with its id is found, added. *)
Lemma node_step_accepted node_prefix nid_map root nid a lon lat flon flat :
  node_lon a = Some lon -> node_lat a = Some lat ->
  py_float L lon = Ok flon -> py_float L lat = Ok flat ->
  node_step L node_prefix (nid_map, root) (nid, a) =
    found ← find_node L root (node_prefix +:+ nid);
    Ok (<[nid := node_prefix +:+ nid]> nid_map,
        if (found : bool) then root
        else add_node L root (node_prefix +:+ nid)
               (transform L flon flat).1 (transform L flon flat).2).
Proof.
  intros Hlon Hlat Hflon Hflat. unfold node_step.
  rewrite Hlon, Hlat, Hflon. simpl. rewrite Hflat. simpl.
  destruct (transform L flon flat) as [x y]. reflexivity.
Qed.

(** C10, as the code has it. A falsy value under x (for the longitude:
    under x or lon) is passed over in favour of the next alias, but the last
    alias tried, lng for the longitude and lat for the latitude, is taken as
    it is, falsy or not. The missing-coordinate error is raised exactly when
    the last alias is absent and every earlier one is absent or falsy; a node
    whose coordinate objects are both there is looked up and added. *)
Theorem C10_falsy_coordinate_aliases (a : attrs) :
  (node_lon a = None <->
     a !! "lng" = None /\ truthy_opt (a !! "x") = false /\
     truthy_opt (a !! "lon") = false)
  /\ (node_lat a = None <-> a !! "lat" = None /\ truthy_opt (a !! "y") = false)
  /\ (truthy_opt (a !! "x") = false -> node_lon a = py_or (a !! "lon") (a !! "lng"))
  /\ (truthy_opt (a !! "x") = false -> truthy_opt (a !! "lon") = false ->
      node_lon a = a !! "lng")
  /\ (truthy_opt (a !! "y") = false -> node_lat a = a !! "lat")
  /\ (truthy (PyInt 0) = false /\ truthy (PyFloat F.zero) = false /\
      truthy (PyStr "") = false)
  /\ (forall node_prefix st nid,
        node_lon a = None \/ node_lat a = None ->
        node_step L node_prefix st (nid, a) = Err (MissingCoordinate nid))
  /\ (forall node_prefix nid_map root nid lon lat flon flat,
        node_lon a = Some lon -> node_lat a = Some lat ->
        py_float L lon = Ok flon -> py_float L lat = Ok flat ->
        node_step L node_prefix (nid_map, root) (nid, a) =
          found ← find_node L root (node_prefix +:+ nid);
          Ok (<[nid := node_prefix +:+ nid]> nid_map,
              if (found : bool) then root
              else add_node L root (node_prefix +:+ nid)
                     (transform L flon flat).1 (transform L flon flat).2)).
Proof.
  split; [apply node_lon_None|]. split; [apply node_lat_None|].
  split; [|split; [|split; [|split; [|split]]]].
  - intros Hx. unfold node_lon. unfold py_or at 2. rewrite Hx. reflexivity.
  - intros Hx Hlon. unfold node_lon. unfold py_or at 2. rewrite Hx.
    unfold py_or. rewrite Hlon. reflexivity.
  - intros Hy. unfold node_lat, py_or. rewrite Hy. reflexivity.
  - repeat split.
  - intros. apply node_step_missing. assumption.
  - intros. eapply node_step_accepted; eassumption.
Qed.

End Nodes.

(** A node whose only longitude attribute is x=0 is rejected; one whose only
    longitude attribute is lng=0 is added. *)
Example greenwich_x_rejected :
  node_step Sample.libs "v_" (∅, build_network_root)
    ("G", {[ "x" := PyInt 0; "y" := PyFloat (F.dec 515 1) ]})
  = Err (MissingCoordinate "G").
Proof. vm_compute. reflexivity. Qed.

Example greenwich_lng_accepted :
  node_step Sample.libs "v_" (∅, build_network_root)
    ("G", {[ "lng" := PyInt 0; "y" := PyFloat (F.dec 515 1) ]})
  = Ok ({[ "G" := "v_G" ]},
        add_node Sample.libs build_network_root "v_G" F.zero (F.dec 515 1)).
Proof. vm_compute. reflexivity. Qed.

(** A node with x=127.0 whose only latitude attribute is lat=0.0: the
    attribute is falsy and there is no other alias, yet the node is added. *)
Lemma C10_counterexample :
  truthy_opt (Sample.equator !! "lat") = false /\
  Sample.equator !! "y" = None /\
  node_step Sample.libs "v_" (∅, build_network_root) ("A", Sample.equator) =
    Ok ({[ "A" := "v_A" ]},
        add_node Sample.libs build_network_root "v_A" (F.of_Z 127) F.zero).
Proof. vm_compute. repeat split. Qed.

(** ** Loops *)

Lemma foldM_raises {A S : Type} (f : S -> A -> result S) (x : A) (l : list A) :
  x ∈ l -> (forall s, exists e, f s x = Err e) ->
  forall s, exists e, foldM f s l = Err e.
Proof.
  intros Hin Hf. induction l as [|a l IH]; [inversion Hin|].
  intros s. simpl. apply elem_of_cons in Hin as [<- | Hin].
  - destruct (Hf s) as [e ->]. eauto.
  - destruct (f s a) as [s'|e]; simpl; [apply IH; assumption | eauto].
Qed.

Lemma foldM_first_failure {A S : Type} (f : S -> A -> result S) (x : A)
    (pre post : list A) (s : S) (e : py_error) :
  is_ok (foldM f s pre) = true -> (forall s', f s' x = Err e) ->
  foldM f s (pre ++ x :: post) = Err e.
Proof.
  intros Hpre Hx. rewrite foldM_app.
  destruct (foldM f s pre) as [s'|]; [|discriminate]. simpl.
  rewrite Hx. reflexivity.
Qed.

Lemma existsb_id_false (pid : string) (l : list node_elem) :
  pid ∉ n_id <$> l -> existsb (fun n => String.eqb (n_id n) pid) l = false.
Proof.
  induction l as [|n l IH]; simpl; [reflexivity|].
  intros Hnot. apply not_elem_of_cons in Hnot as [Hne Hnot].
  rewrite (IH Hnot), orb_false_r. apply String.eqb_neq. congruence.
Qed.

Section Loops.
Variable L : Libs.

(** *** The node loop *)

Lemma node_step_Ok_inv node_prefix nid_map root nid a nid_map' root' :
  node_step L node_prefix (nid_map, root) (nid, a) = Ok (nid_map', root') ->
  exists found,
    find_node L root (node_prefix +:+ nid) = Ok found /\
    nid_map' = <[nid := node_prefix +:+ nid]> nid_map /\
    (found = true -> root' = root) /\
    (found = false -> links root' = links root /\
       exists n, n_id n = node_prefix +:+ nid /\ nodes root' = nodes root ++ [n]).
Proof.
  unfold node_step. intros H.
  destruct (node_lon a) as [lon|]; [|discriminate].
  destruct (node_lat a) as [lat|]; [|discriminate].
  destruct (py_float L lon) as [flon|]; [|discriminate]. simpl in H.
  destruct (py_float L lat) as [flat|]; [|discriminate]. simpl in H.
  destruct (transform L flon flat) as [x y].
  destruct (find_node L root (node_prefix +:+ nid)) as [found|]; [|discriminate].
  simpl in H. injection H as <- <-. exists found. repeat split.
  - intros ->. reflexivity.
  - subst found. reflexivity.
  - subst found. eexists. split; [|reflexivity]. reflexivity.
Qed.

(** The node loop leaves the links alone and appends node elements whose
    ids are, in order, prefixed ids of the graph's nodes. *)
Lemma node_loop_inv node_prefix ns :
  forall nid_map root nid_map' root',
  foldM (node_step L node_prefix) (nid_map, root) ns = Ok (nid_map', root') ->
  links root' = links root /\
  exists added,
    nodes root' = nodes root ++ added /\
    (n_id <$> added) `sublist_of` (String.append node_prefix <$> ns.*1).
Proof.
  induction ns as [|[nid a] ns IH]; intros nid_map root nid_map' root' H; simpl in H.
  - injection H as <- <-. split; [reflexivity|]. exists []. rewrite app_nil_r.
    split; [reflexivity | constructor].
  - apply bind_Ok_inv in H as ([m1 root1] & Hstep & Hrest).
    apply node_step_Ok_inv in Hstep as (found & _ & _ & Hfound & Hnew).
    apply IH in Hrest as (Hlinks & added & Hnodes & Hsub).
    destruct found.
    + rewrite (Hfound eq_refl) in *. split; [exact Hlinks|].
      exists added. split; [exact Hnodes|]. simpl. apply sublist_cons. exact Hsub.
    + destruct (Hnew eq_refl) as (Hl & n & Hid & Hn).
      split; [congruence|]. exists (n :: added). split.
      * rewrite Hnodes, Hn, <- app_assoc. reflexivity.
      * simpl. rewrite Hid. apply sublist_skip. exact Hsub.
Qed.

(** When no identifier holds an apostrophe, the ids of the source are
    distinct and none of them is in the tree yet: every node is added. *)
Lemma node_loop_exact node_prefix ns :
  forall nid_map root nid_map' root',
  NoDup ns.*1 ->
  (forall nid, nid ∈ ns.*1 -> contains_char "'"%char (node_prefix +:+ nid) = false) ->
  (forall nid, nid ∈ ns.*1 -> node_prefix +:+ nid ∉ n_id <$> nodes root) ->
  foldM (node_step L node_prefix) (nid_map, root) ns = Ok (nid_map', root') ->
  n_id <$> nodes root' = (n_id <$> nodes root) ++ (String.append node_prefix <$> ns.*1).
Proof.
  induction ns as [|[nid a] ns IH];
    intros nid_map root nid_map' root' Hnd Hq Hfresh H; simpl in H.
  - injection H as <- <-. simpl. rewrite app_nil_r. reflexivity.
  - simpl in Hnd. apply NoDup_cons in Hnd as [Hnid Hnd].
    apply bind_Ok_inv in H as ([m1 root1] & Hstep & Hrest).
    apply node_step_Ok_inv in Hstep as (found & Hfind & _ & _ & Hnew).
    unfold find_node in Hfind.
    rewrite (Hq nid) in Hfind by (simpl; left).
    rewrite existsb_id_false in Hfind by (apply Hfresh; simpl; left).
    injection Hfind as <-. destruct (Hnew eq_refl) as (_ & n & Hid & Hn).
    assert (Hids : n_id <$> nodes root1 = (n_id <$> nodes root) ++ [node_prefix +:+ nid])
      by (rewrite Hn, fmap_app; simpl; rewrite Hid; reflexivity).
    rewrite (IH m1 root1 nid_map' root' Hnd); [ | | | exact Hrest].
    + rewrite Hids, <- app_assoc. reflexivity.
    + intros nid' Hin. apply Hq. simpl. right. exact Hin.
    + intros nid' Hin. rewrite Hids. apply not_elem_of_app. split.
      * apply Hfresh. simpl. right. exact Hin.
      * intros Heq%list_elem_of_singleton. apply (inj _) in Heq.
        subst nid'. exact (Hnid Hin).
Qed.

Lemma node_loop_raises node_prefix st ns nid a :
  (nid, a) ∈ ns -> node_lon a = None \/ node_lat a = None ->
  exists e, foldM (node_step L node_prefix) st ns = Err e.
Proof.
  intros Hin Hmiss. apply (foldM_raises _ (nid, a)); [exact Hin|].
  intros s. eexists. apply node_step_missing. exact Hmiss.
Qed.

End Loops.

Section Links.
Variable L : Libs.
Variables (g : graph) (link_prefix : string) (default_speed : float) (modes : string).
Variable nid_map : gmap string string.

(** *** The link loop *)

Lemma edge_step_shape seq root e seq' root' :
  edge_step L g link_prefix default_speed modes nid_map (seq, root) e = Ok (seq', root') ->
  nodes root' = nodes root /\
  exists new,
    links root' = links root ++ new /\
    length new = links_emitted L e /\
    seq' = (seq + N.of_nat (length new))%N /\
    forall k l, new !! k = Some l ->
      l_id l = link_prefix +:+ pretty (seq + N.of_nat k)%N /\ l_modes l = modes.
Proof.
  destruct e as [[u v] edata]. intros H.
  destruct (edge_step_Ok_inv _ _ _ _ _ _ _ _ _ _ _ _ _ H)
    as (src & tgt & len & spd & Hu & Hv & Hlen & Hspd).
  rewrite (edge_step_resolved L g link_prefix default_speed modes nid_map seq root
             u v edata src tgt len spd Hu Hv Hlen Hspd) in H.
  unfold links_emitted. simpl.
  destruct (edge_oneway L edata); injection H as <- <-; (split; [reflexivity|]);
    eexists; (split; [reflexivity|]); (split; [reflexivity|]);
    (split; [simpl; lia|]).
  - intros [|k] l Hk; simpl in Hk; [|discriminate].
    injection Hk as <-. simpl. rewrite N.add_0_r. auto.
  - intros [|[|k]] l Hk; simpl in Hk; [| |discriminate]; injection Hk as <-; simpl.
    + rewrite N.add_0_r. auto.
    + auto.
Qed.

Lemma edge_loop_inv es :
  forall seq root seq' root',
  foldM (edge_step L g link_prefix default_speed modes nid_map) (seq, root) es
    = Ok (seq', root') ->
  nodes root' = nodes root /\
  exists new,
    links root' = links root ++ new /\
    length new = sum_list (links_emitted L <$> es) /\
    seq' = (seq + N.of_nat (length new))%N /\
    forall k l, new !! k = Some l ->
      l_id l = link_prefix +:+ pretty (seq + N.of_nat k)%N /\ l_modes l = modes.
Proof.
  induction es as [|e es IH]; intros seq root seq' root' H; simpl in H.
  - injection H as <- <-. split; [reflexivity|]. exists [].
    rewrite app_nil_r. split; [reflexivity|]. split; [reflexivity|].
    split; [simpl; lia|]. intros k l Hk. destruct k; discriminate Hk.
  - apply bind_Ok_inv in H as ([seq1 root1] & Hstep & Hrest).
    apply edge_step_shape in Hstep as (Hn1 & new1 & Hl1 & Hlen1 & Hseq1 & Hid1).
    apply IH in Hrest as (Hn2 & new2 & Hl2 & Hlen2 & Hseq2 & Hid2).
    split; [congruence|]. exists (new1 ++ new2).
    split; [rewrite Hl2, Hl1, <- app_assoc; reflexivity|].
    split; [rewrite length_app, Hlen1, Hlen2; reflexivity|].
    split; [rewrite length_app; lia|].
    intros k l Hk. apply lookup_app_Some in Hk as [Hk | [Hge Hk]].
    + apply Hid1. exact Hk.
    + destruct (Hid2 _ _ Hk) as [Hid Hm]. split; [|exact Hm].
      rewrite Hid, Hseq1. f_equal. f_equal. lia.
Qed.

End Links.

(** ** One graph, then both *)

Lemma prefixes_disjoint (a b : string) : "v_" +:+ a <> "p_" +:+ b.
Proof. simpl. discriminate. Qed.

Lemma prefixed_ids_NoDup (drive_ids walk_ids : list string) :
  NoDup drive_ids -> NoDup walk_ids ->
  NoDup ((String.append "v_" <$> drive_ids) ++ (String.append "p_" <$> walk_ids)).
Proof.
  intros Hd Hw. apply NoDup_app. split; [|split].
  - apply (NoDup_fmap_2 _). exact Hd.
  - intros x (a & -> & _)%list_elem_of_fmap (b & Heq & _)%list_elem_of_fmap.
    exact (prefixes_disjoint a b Heq).
  - apply (NoDup_fmap_2 _). exact Hw.
Qed.

Section Graphs.
Variable L : Libs.

Lemma graph_to_matsim_inv g root node_prefix link_prefix default_speed modes root' :
  graph_to_matsim L g root node_prefix link_prefix default_speed modes = Ok root' ->
  exists added new,
    nodes root' = nodes root ++ added /\
    links root' = links root ++ new /\
    (n_id <$> added) `sublist_of` (String.append node_prefix <$> (g_nodes g).*1) /\
    length new = sum_list (links_emitted L <$> g_edges g) /\
    forall k l, new !! k = Some l ->
      l_id l = link_prefix +:+ pretty (N.of_nat k) /\ l_modes l = modes.
Proof.
  unfold graph_to_matsim. intros H.
  apply bind_Ok_inv in H as ([nid_map root1] & Hnodes & H).
  apply bind_Ok_inv in H as ([seq root2] & Hedges & H). injection H as <-.
  apply node_loop_inv in Hnodes as (Hl1 & added & Hn1 & Hsub).
  apply edge_loop_inv in Hedges as (Hn2 & new & Hl2 & Hlen & _ & Hid).
  exists added, new. repeat split; try congruence; apply (Hid k l); assumption.
Qed.

Lemma graph_to_matsim_exact g root node_prefix link_prefix default_speed modes root' :
  NoDup (g_nodes g).*1 ->
  (forall nid, nid ∈ (g_nodes g).*1 ->
     contains_char "'"%char (node_prefix +:+ nid) = false) ->
  (forall nid, nid ∈ (g_nodes g).*1 -> node_prefix +:+ nid ∉ n_id <$> nodes root) ->
  graph_to_matsim L g root node_prefix link_prefix default_speed modes = Ok root' ->
  n_id <$> nodes root' =
    (n_id <$> nodes root) ++ (String.append node_prefix <$> (g_nodes g).*1).
Proof.
  unfold graph_to_matsim. intros Hnd Hq Hfresh H.
  apply bind_Ok_inv in H as ([nid_map root1] & Hnodes & H).
  apply bind_Ok_inv in H as ([seq root2] & Hedges & H). injection H as <-.
  apply edge_loop_inv in Hedges as (Hn2 & _).
  rewrite Hn2. exact (node_loop_exact L _ _ _ _ _ _ Hnd Hq Hfresh Hnodes).
Qed.

Lemma graph_to_matsim_node_error g root node_prefix link_prefix default_speed modes e :
  foldM (node_step L node_prefix) (∅, root) (g_nodes g) = Err e ->
  graph_to_matsim L g root node_prefix link_prefix default_speed modes = Err e.
Proof. intros H. unfold graph_to_matsim. rewrite H. reflexivity. Qed.

Lemma graph_to_matsim_raises g root node_prefix link_prefix default_speed modes nid a :
  (nid, a) ∈ g_nodes g -> node_lon a = None \/ node_lat a = None ->
  exists e, graph_to_matsim L g root node_prefix link_prefix default_speed modes = Err e.
Proof.
  intros Hin Hmiss.
  destruct (node_loop_raises L node_prefix (∅, root) (g_nodes g) nid a Hin Hmiss)
    as [e He].
  exists e. apply graph_to_matsim_node_error. exact He.
Qed.

Lemma main_after_read drive_graphml walk_graphml output fs drive_g walk_g :
  read_graph L fs drive_graphml = Ok drive_g ->
  read_graph L fs walk_graphml = Ok walk_g ->
  main L drive_graphml walk_graphml output fs =
    match root ← merge_graphs L drive_g walk_g; write_outputs L root output fs with
    | Ok fs' => (Ok tt, fs')
    | Err e => (Err e, fs)
    end.
Proof. intros Hd Hw. unfold main. rewrite Hd, Hw. reflexivity. Qed.

(** C6. In the network merged from the drive graph (prefix v_) and the walk
    graph (prefix p_) no two node elements have the same id: the ids are, in
    order and without repetition, prefixed ids of drive nodes followed by
    prefixed ids of walk nodes, and an id under v_ never equals one under p_,
    whatever the raw ids are. When no raw id holds an apostrophe every
    source node has exactly one element. *)
Theorem C6_node_ids_unique drive_g walk_g root :
  NoDup (g_nodes drive_g).*1 -> NoDup (g_nodes walk_g).*1 ->
  merge_graphs L drive_g walk_g = Ok root ->
  let merged_ids :=
    (String.append "v_" <$> (g_nodes drive_g).*1) ++
    (String.append "p_" <$> (g_nodes walk_g).*1) in
  NoDup (n_id <$> nodes root)
  /\ (n_id <$> nodes root) `sublist_of` merged_ids
  /\ (forall a b, "v_" +:+ a <> "p_" +:+ b)
  /\ ((forall nid, nid ∈ (g_nodes drive_g).*1 ++ (g_nodes walk_g).*1 ->
         contains_char "'"%char nid = false) ->
      n_id <$> nodes root = merged_ids).
Proof.
  intros Hd Hw Hmerge merged_ids. unfold merge_graphs in Hmerge.
  apply bind_Ok_inv in Hmerge as (root1 & Hdrive & Hwalk).
  assert (Hsub : (n_id <$> nodes root) `sublist_of` merged_ids).
  { destruct (graph_to_matsim_inv _ _ _ _ _ _ _ Hdrive) as (ad & _ & Hn1 & _ & Hs1 & _).
    destruct (graph_to_matsim_inv _ _ _ _ _ _ _ Hwalk) as (aw & _ & Hn2 & _ & Hs2 & _).
    rewrite Hn2, Hn1. simpl. rewrite fmap_app. apply sublist_app; assumption. }
  split; [|split; [exact Hsub | split; [exact prefixes_disjoint|]]].
  - eapply sublist_NoDup; [|exact Hsub]. apply prefixed_ids_NoDup; assumption.
  - intros Hq.
    assert (H1 : n_id <$> nodes root1 = String.append "v_" <$> (g_nodes drive_g).*1).
    { apply (graph_to_matsim_exact _ _ _ _ _ _ _ Hd) in Hdrive; [exact Hdrive| |].
      - intros nid Hin. simpl. apply Hq, elem_of_app. left. exact Hin.
      - intros nid _. simpl. apply not_elem_of_nil. }
    apply (graph_to_matsim_exact _ _ _ _ _ _ _ Hw) in Hwalk.
    + rewrite Hwalk, H1. reflexivity.
    + intros nid Hin. simpl. apply Hq, elem_of_app. right. exact Hin.
    + intros nid _. rewrite H1. intros (a & Heq & _)%list_elem_of_fmap.
      exact (prefixes_disjoint a nid (eq_sym Heq)).
Qed.

(** C7. When a node of either graph has no longitude attribute (x, lon, lng)
    or no latitude attribute (y, lat), its pass of the node loop raises the
    missing-coordinate error naming the node, and that is the error of the
    conversion when the loop reaches the node; the merge fails, and [main]
    ends with the error of the merge and the file system as it found it:
    [write_outputs] runs only on a merge that succeeded. *)
Theorem C7_missing_coordinate_aborts
    drive_graphml walk_graphml output fs drive_g walk_g nid a :
  read_graph L fs drive_graphml = Ok drive_g ->
  read_graph L fs walk_graphml = Ok walk_g ->
  (nid, a) ∈ g_nodes drive_g ++ g_nodes walk_g ->
  (a !! "x" = None /\ a !! "lon" = None /\ a !! "lng" = None) \/
  (a !! "y" = None /\ a !! "lat" = None) ->
  (forall node_prefix st,
     node_step L node_prefix st (nid, a) = Err (MissingCoordinate nid))
  /\ (forall g root node_prefix link_prefix default_speed modes pre post,
        g_nodes g = pre ++ (nid, a) :: post ->
        is_ok (foldM (node_step L node_prefix) (∅, root) pre) = true ->
        graph_to_matsim L g root node_prefix link_prefix default_speed modes
          = Err (MissingCoordinate nid))
  /\ (exists e, merge_graphs L drive_g walk_g = Err e /\
        main L drive_graphml walk_graphml output fs = (Err e, fs))
  /\ (forall e, merge_graphs L drive_g walk_g = Err e ->
        main L drive_graphml walk_graphml output fs = (Err e, fs))
  /\ (forall pre post,
        g_nodes drive_g = pre ++ (nid, a) :: post ->
        is_ok (foldM (node_step L "v_") (∅, build_network_root) pre) = true ->
        main L drive_graphml walk_graphml output fs
          = (Err (MissingCoordinate nid), fs))
  /\ (forall root1 pre post,
        graph_to_matsim L drive_g build_network_root "v_" "car_"
          CAR_DEFAULT_SPEED "car" = Ok root1 ->
        g_nodes walk_g = pre ++ (nid, a) :: post ->
        is_ok (foldM (node_step L "p_") (∅, root1) pre) = true ->
        main L drive_graphml walk_graphml output fs
          = (Err (MissingCoordinate nid), fs)).
Proof.
  intros Hrd Hrw Hin Habsent.
  assert (Hmiss : node_lon a = None \/ node_lat a = None).
  { destruct Habsent as [(Hx & Hlon & Hlng) | (Hy & Hlat)].
    - left. apply node_lon_None. rewrite Hx, Hlon, Hlng. auto.
    - right. apply node_lat_None. rewrite Hy, Hlat. auto. }
  assert (Hmain : forall e, merge_graphs L drive_g walk_g = Err e ->
            main L drive_graphml walk_graphml output fs = (Err e, fs)).
  { intros e He. rewrite (main_after_read _ _ _ _ _ _ Hrd Hrw), He. reflexivity. }
  assert (Hfirst : forall g root node_prefix link_prefix default_speed modes pre post,
            g_nodes g = pre ++ (nid, a) :: post ->
            is_ok (foldM (node_step L node_prefix) (∅, root) pre) = true ->
            graph_to_matsim L g root node_prefix link_prefix default_speed modes
              = Err (MissingCoordinate nid)).
  { intros g root node_prefix link_prefix default_speed modes pre post Hg Hpre.
    apply graph_to_matsim_node_error. rewrite Hg.
    apply foldM_first_failure; [exact Hpre|].
    intros s'. apply node_step_missing. exact Hmiss. }
  split; [|split; [exact Hfirst|split; [|split; [exact Hmain|split]]]].
  - intros node_prefix st. apply node_step_missing. exact Hmiss.
  - assert (Herr : exists e, merge_graphs L drive_g walk_g = Err e).
    { unfold merge_graphs. apply elem_of_app in Hin as [Hin | Hin].
      - destruct (graph_to_matsim_raises drive_g build_network_root "v_" "car_"
                    CAR_DEFAULT_SPEED "car" nid a Hin Hmiss) as [e ->]. eauto.
      - destruct (graph_to_matsim L drive_g build_network_root "v_" "car_"
                    CAR_DEFAULT_SPEED "car") as [root1|e]; [|eauto]. simpl.
        apply (graph_to_matsim_raises walk_g root1 "p_" "walk_" WALK_DEFAULT_SPEED
                 "walk" nid a Hin Hmiss). }
    destruct Herr as [e He]. exists e. split; [exact He | apply Hmain; exact He].
  - intros pre post Hg Hpre. apply Hmain. unfold merge_graphs.
    rewrite (Hfirst drive_g build_network_root "v_" "car_" CAR_DEFAULT_SPEED "car"
               pre post Hg Hpre). reflexivity.
  - intros root1 pre post Hdrive Hg Hpre. apply Hmain. unfold merge_graphs.
    rewrite Hdrive. simpl.
    apply (Hfirst walk_g root1 "p_" "walk_" WALK_DEFAULT_SPEED "walk" pre post Hg Hpre).
Qed.


End Graphs.

Lemma C6_node_ids_unique_witness :
  merge_graphs Sample.libs Sample.drive_graph Sample.walk_graph = Ok Sample.merged /\
  n_id <$> nodes Sample.merged = ["v_A"; "v_B"; "p_A"; "p_B"] /\
  NoDup (n_id <$> nodes Sample.merged).
Proof.
  assert (Hm : merge_graphs Sample.libs Sample.drive_graph Sample.walk_graph
               = Ok Sample.merged) by (vm_compute; reflexivity).
  split; [exact Hm|].
  assert (Hnd : NoDup ["A"; "B"]).
  { apply NoDup_cons. split; [|apply NoDup_singleton].
    intros H%list_elem_of_singleton. discriminate H. }
  destruct (C6_node_ids_unique Sample.libs Sample.drive_graph Sample.walk_graph
              Sample.merged Hnd Hnd Hm) as (Hunique & _ & _ & Hexact).
  split; [|exact Hunique].
  apply Hexact.
  intros nid Hin. simpl in Hin.
  repeat (apply elem_of_cons in Hin as [-> | Hin]; [reflexivity|]).
  inversion Hin.
Defined.

Lemma C7_missing_coordinate_aborts_witness :
  main Sample.libs "bad.graphml" "walk.graphml" "net.xml" Sample.disk
  = (Err (MissingCoordinate "C"), Sample.disk).
Proof.
  destruct (C7_missing_coordinate_aborts Sample.libs "bad.graphml" "walk.graphml"
              "net.xml" Sample.disk Sample.nocoord_graph Sample.walk_graph "C" ∅)
    as (_ & _ & _ & _ & Hdrive & _).
  - vm_compute; reflexivity.
  - vm_compute; reflexivity.
  - apply elem_of_app. left. apply list_elem_of_further, list_elem_of_here.
  - left. repeat split; reflexivity.
  - apply (Hdrive [("A", Sample.xy (F.of_Z 127) (F.dec 375 1))] []);
      [reflexivity | vm_compute; reflexivity].
Defined.

(** The merged sample network: the walk edge is two-way, and its two links
    are walk_0 and walk_1 after the drive graph's car_0. *)
Example sample_link_ids :
  (fun r => match r with
            | Ok root => (fun l => (l_id l, l_from l, l_to l)) <$> links root
            | Err _ => []
            end)
    (merge_graphs Sample.libs Sample.drive_graph Sample.walk_graph)
  = [("car_0", "v_A", "v_B"); ("walk_0", "p_A", "p_B"); ("walk_1", "p_B", "p_A")].
Proof. vm_compute. reflexivity. Qed.

(** ** The two output files *)

Lemma length_append (s1 s2 : string) :
  String.length (s1 +:+ s2) = String.length s1 + String.length s2.
Proof. induction s1 as [|c s1 IH]; simpl; [reflexivity | rewrite IH; reflexivity]. Qed.

Lemma length_substring_le (s : string) :
  forall n m, String.length (substring n m s) <= m.
Proof.
  induction s as [|c s IH]; intros n m.
  - destruct n, m; simpl; lia.
  - destruct n as [|n].
    + destruct m as [|m]; simpl; [lia|]. specialize (IH 0 m). lia.
    + simpl. apply IH.
Qed.

Lemma output_paths_distinct (target xml_path gz_path : string) :
  output_paths target = Ok (xml_path, gz_path) -> xml_path <> gz_path.
Proof.
  unfold output_paths. destruct (String.eqb (path_suffix target) ".gz") eqn:Hs.
  - intros [= <- <-] Heq.
    pose proof (length_substring_le target 0 (String.length target - 3)) as Hle.
    rewrite Heq in Hle. destruct target; [discriminate Hs | simpl in Hle; lia].
  - unfold with_gz_suffix. destruct (String.eqb (path_name target) ""); [discriminate|].
    simpl. intros [= <- <-] Heq.
    apply (f_equal String.length) in Heq. rewrite length_append in Heq.
    simpl in Heq. lia.
Qed.

Section Writer.
Variable L : Libs.

(** C9. Both files are written from the one payload: after [write_outputs]
    the plain file holds the payload and the compressed file holds its
    compression, so that, for a codec whose decompression undoes its
    compression, decompressing the compressed file gives the bytes of the
    plain file. No other file changes. *)
Theorem C9_compressed_twin root target fs fs' :
  (forall path data, gzip_decompress L (gzip_compress L path data) = Some data) ->
  write_outputs L root target fs = Ok fs' ->
  exists xml_path gz_path gz_bytes,
    output_paths target = Ok (xml_path, gz_path) /\
    fs' !! xml_path = Some (xml_payload L root) /\
    fs' !! gz_path = Some gz_bytes /\
    gz_bytes = gzip_compress L gz_path (xml_payload L root) /\
    gzip_decompress L gz_bytes = fs' !! xml_path /\
    (forall p, p <> xml_path -> p <> gz_path -> fs' !! p = fs !! p).
Proof.
  intros Hcodec Hw. unfold write_outputs in Hw.
  apply bind_Ok_inv in Hw as ([xml_path gz_path] & Hpaths & Hw).
  injection Hw as <-.
  pose proof (output_paths_distinct _ _ _ Hpaths) as Hne.
  exists xml_path, gz_path, (gzip_compress L gz_path (xml_payload L root)).
  assert (Hxml : <[gz_path := gzip_compress L gz_path (xml_payload L root)]>
                   (<[xml_path := xml_payload L root]> fs) !! xml_path
                 = Some (xml_payload L root)).
  { rewrite lookup_insert_ne by congruence. apply lookup_insert_eq. }
  repeat split.
  - exact Hpaths.
  - exact Hxml.
  - apply lookup_insert_eq.
  - rewrite Hxml. apply Hcodec.
  - intros p Hp1 Hp2. rewrite !lookup_insert_ne by congruence. reflexivity.
Qed.

End Writer.

Lemma C9_compressed_twin_witness :
  write_outputs Sample.libs build_network_root "net.xml" ∅ = Ok Sample.written /\
  Sample.written !! "net.xml" = Some (xml_payload Sample.libs build_network_root) /\
  (Sample.written !! "net.xml.gz") ≫= Sample.unstore = Sample.written !! "net.xml".
Proof.
  assert (Hw : write_outputs Sample.libs build_network_root "net.xml" ∅
               = Ok Sample.written) by (vm_compute; reflexivity).
  split; [exact Hw|].
  destruct (C9_compressed_twin Sample.libs build_network_root "net.xml" ∅
              Sample.written (fun path data => eq_refl) Hw)
    as (xml_path & gz_path & gz_bytes & Hpaths & Hxml & Hgz & _ & Hround & _).
  vm_compute in Hpaths. injection Hpaths as <- <-.
  split; [exact Hxml|]. rewrite Hgz. exact Hround.
Defined.

(** * Further properties *)

(** ** Strings *)

Lemma append_nil (b : string) : "" +:+ b = b.
Proof. reflexivity. Qed.

Lemma append_cons (c : ascii) (a b : string) : String c a +:+ b = String c (a +:+ b).
Proof. reflexivity. Qed.

Lemma append_assoc (a b c : string) : (a +:+ b) +:+ c = a +:+ (b +:+ c).
Proof.
  induction a as [|x a IH]; [reflexivity|].
  rewrite !append_cons, IH. reflexivity.
Qed.

Lemma append_empty_r (a : string) : a +:+ "" = a.
Proof.
  induction a as [|x a IH]; [reflexivity|]. rewrite append_cons, IH. reflexivity.
Qed.

Lemma substring_0_0 (s : string) : substring 0 0 s = "".
Proof. destruct s; reflexivity. Qed.

Lemma substring_0_append (a b : string) : substring 0 (String.length a) (a +:+ b) = a.
Proof.
  induction a as [|x a IH]; [apply substring_0_0|].
  rewrite append_cons. simpl. rewrite IH. reflexivity.
Qed.

Lemma substring_all (s : string) : substring 0 (String.length s) s = s.
Proof. rewrite <- (append_empty_r s) at 2. apply substring_0_append. Qed.

Lemma substring_append_r (a b : string) :
  substring (String.length a) (String.length b) (a +:+ b) = b.
Proof.
  induction a as [|x a IH]; [apply substring_all|].
  rewrite append_cons. simpl. exact IH.
Qed.

Lemma substring_split (s : string) :
  forall i, i <= String.length s ->
  s = substring 0 i s +:+ substring i (String.length s - i) s.
Proof.
  induction s as [|c s IH]; intros i Hi; simpl in Hi.
  - destruct i; [reflexivity | lia].
  - destruct i as [|i]; simpl.
    + rewrite substring_all. reflexivity.
    + rewrite append_cons, <- (IH i) by lia. reflexivity.
Qed.

(** ** The output paths *)

Lemma after_last_slash_suffix (s : string) :
  forall acc, after_last_slash s acc = acc \/
              exists pre, s = pre +:+ after_last_slash s acc.
Proof.
  induction s as [|c s IH]; intros acc; simpl; [left; reflexivity|].
  destruct (Ascii.eqb c "/").
  - right. destruct (IH s) as [-> | [pre Hpre]].
    + exists (String c ""). reflexivity.
    + exists (String c pre). rewrite append_cons, <- Hpre. reflexivity.
  - destruct (IH acc) as [-> | [pre Hpre]]; [left; reflexivity|].
    right. exists (String c pre). rewrite append_cons, <- Hpre. reflexivity.
Qed.

Lemma path_name_suffix (p : string) : exists pre, p = pre +:+ path_name p.
Proof.
  unfold path_name. destruct (String.eqb p ".") eqn:Hp.
  - exists p. rewrite append_empty_r. reflexivity.
  - destruct (after_last_slash_suffix p p) as [-> | H]; [exists ""; reflexivity | exact H].
Qed.

Lemma path_suffix_suffix (p : string) : exists pre, p = pre +:+ path_suffix p.
Proof.
  unfold path_suffix. destruct (path_name_suffix p) as [pre Hpre].
  set (name := path_name p) in *.
  destruct (rfind_dot name 0 None) as [i|];
    [|exists p; rewrite append_empty_r; reflexivity].
  destruct ((0 <? i)%nat && (i <? String.length name - 1)%nat) eqn:Hc;
    [|exists p; rewrite append_empty_r; reflexivity].
  apply andb_true_iff in Hc as [_ Hi%Nat.ltb_lt].
  exists (pre +:+ substring 0 i name).
  rewrite append_assoc, <- substring_split by lia. exact Hpre.
Qed.

Lemma drop_gz (pre : string) :
  substring 0 (String.length (pre +:+ ".gz") - 3) (pre +:+ ".gz") = pre.
Proof.
  rewrite length_append. simpl.
  replace (String.length pre + 3 - 3) with (String.length pre) by lia.
  apply substring_0_append.
Qed.

Lemma output_paths_beside (target xml_path gz_path : string) :
  output_paths target = Ok (xml_path, gz_path) ->
  gz_path = xml_path +:+ ".gz" /\ (target = xml_path \/ target = gz_path).
Proof.
  unfold output_paths. destruct (String.eqb (path_suffix target) ".gz") eqn:Hs.
  - apply String.eqb_eq in Hs. intros [= <- <-].
    destruct (path_suffix_suffix target) as [pre Hpre]. rewrite Hs in Hpre.
    rewrite Hpre at 2 3. rewrite drop_gz. auto.
  - unfold with_gz_suffix. destruct (String.eqb (path_name target) ""); [discriminate|].
    simpl. intros [= <- <-]. auto.
Qed.



Lemma after_last_slash_no_slash (x : string) :
  contains_char "/"%char x = false -> forall acc, after_last_slash x acc = acc.
Proof.
  induction x as [|c x IH]; intros H acc; [reflexivity|].
  cbn [contains_char] in H. apply orb_false_iff in H as [Hc Hx].
  cbn [after_last_slash]. rewrite Ascii.eqb_sym, Hc. apply IH. exact Hx.
Qed.

Lemma after_last_slash_append (s x : string) :
  contains_char "/"%char x = false ->
  forall acc, after_last_slash (s +:+ x) (acc +:+ x) = after_last_slash s acc +:+ x.
Proof.
  intros Hx. induction s as [|c s IH]; intros acc.
  - rewrite append_nil. cbn [after_last_slash]. apply after_last_slash_no_slash. exact Hx.
  - rewrite append_cons. cbn [after_last_slash]. destruct (Ascii.eqb c "/"); apply IH.
Qed.

Lemma rfind_dot_append (a b : string) :
  forall i last,
  rfind_dot (a +:+ b) i last = rfind_dot b (i + String.length a) (rfind_dot a i last).
Proof.
  induction a as [|c a IH]; intros i last.
  - rewrite append_nil. cbn [rfind_dot String.length]. rewrite Nat.add_0_r. reflexivity.
  - rewrite append_cons. cbn [rfind_dot String.length]. rewrite IH. f_equal. lia.
Qed.

Lemma path_name_append_gz (t : string) :
  path_name t <> "" -> path_name (t +:+ ".gz") = path_name t +:+ ".gz".
Proof.
  unfold path_name. intros Hname.
  destruct (String.eqb t ".") eqn:Ht; [congruence|].
  assert (Hne : String.eqb (t +:+ ".gz") "." = false).
  { apply String.eqb_neq. intros H%(f_equal String.length).
    rewrite length_append in H. simpl in H. lia. }
  rewrite Hne. apply after_last_slash_append. reflexivity.
Qed.

Lemma path_suffix_append_gz (t : string) :
  path_name t <> "" -> path_suffix (t +:+ ".gz") = ".gz".
Proof.
  intros Hname. unfold path_suffix. rewrite (path_name_append_gz t Hname).
  set (name := path_name t) in *.
  rewrite rfind_dot_append. simpl. rewrite length_append. simpl.
  assert (Hlen : 0 < String.length name) by (destruct name; [congruence | simpl; lia]).
  replace (0 <? String.length name)%nat with true by (symmetry; apply Nat.ltb_lt; lia).
  replace (String.length name <? String.length name + 3 - 1)%nat with true
    by (symmetry; apply Nat.ltb_lt; lia).
  simpl. replace (String.length name + 3 - String.length name) with 3 by lia.
  apply (substring_append_r name ".gz").
Qed.


Section Outputs.
Variable L : Libs.

(** X2. The output name may be given with or without ".gz": for a name that
    does not itself end in ".gz", naming the compressed file instead of the
    plain one writes the same two files. *)
Theorem write_outputs_either_name root target fs :
  path_name target <> "" -> path_suffix target <> ".gz" ->
  output_paths (target +:+ ".gz") = Ok (target, target +:+ ".gz") /\
  write_outputs L root (target +:+ ".gz") fs = write_outputs L root target fs.
Proof.
  intros Hname Hsuf.
  assert (Hgz : output_paths (target +:+ ".gz") = Ok (target, target +:+ ".gz")).
  { unfold output_paths. rewrite (path_suffix_append_gz target Hname). simpl.
    rewrite drop_gz. reflexivity. }
  assert (Hplain : output_paths target = Ok (target, target +:+ ".gz")).
  { unfold output_paths, with_gz_suffix.
    destruct (String.eqb_spec (path_suffix target) ".gz"); [contradiction|].
    destruct (String.eqb_spec (path_name target) ""); [contradiction|]. reflexivity. }
  split; [exact Hgz|]. unfold write_outputs. rewrite Hgz, Hplain. reflexivity.
Qed.




End Outputs.

Lemma write_outputs_either_name_witness :
  write_outputs Sample.libs build_network_root "net.xml.gz" ∅ = Ok Sample.written.
Proof.
  destruct (write_outputs_either_name Sample.libs build_network_root "net.xml" ∅)
    as [_ Hsame]; [discriminate | discriminate |].
  change ("net.xml" +:+ ".gz") with "net.xml.gz" in Hsame.
  rewrite Hsame. vm_compute. reflexivity.
Defined.


(** ** Links and the nodes they join *)

Lemma existsb_id_true (pid : string) (l : list node_elem) :
  existsb (fun n => String.eqb (n_id n) pid) l = true -> pid ∈ n_id <$> l.
Proof.
  induction l as [|n l IH]; simpl; [discriminate|].
  intros [Hn | Hl]%orb_true_iff.
  - apply String.eqb_eq in Hn. rewrite Hn. apply list_elem_of_here.
  - apply list_elem_of_further, IH, Hl.
Qed.

Lemma existsb_id_false_inv (pid : string) (l : list node_elem) :
  existsb (fun n => String.eqb (n_id n) pid) l = false -> pid ∉ n_id <$> l.
Proof.
  intros Hf Hin. induction l as [|n l IH]; simpl in *; [inversion Hin|].
  apply orb_false_iff in Hf as [Hn Hl]. apply elem_of_cons in Hin as [Heq | Hin].
  - rewrite Heq, String.eqb_refl in Hn. discriminate.
  - exact (IH Hl Hin).
Qed.

Section Integrity.
Variable L : Libs.

(** The dictionary of prefixed ids the node loop builds. *)
Lemma node_loop_nid_map node_prefix ns :
  forall nid_map root nid_map' root',
  foldM (node_step L node_prefix) (nid_map, root) ns = Ok (nid_map', root') ->
  forall u,
    (u ∈ ns.*1 -> nid_map' !! u = Some (node_prefix +:+ u)) /\
    (u ∉ ns.*1 -> nid_map' !! u = nid_map !! u).
Proof.
  induction ns as [|[nid a] ns IH]; intros nid_map root nid_map' root' H u; simpl in H.
  - injection H as <- <-. split; [intros Hin; inversion Hin | reflexivity].
  - apply bind_Ok_inv in H as ([m1 root1] & Hstep & Hrest).
    apply node_step_Ok_inv in Hstep as (_ & _ & -> & _).
    destruct (IH _ _ _ _ Hrest u) as [Hin Hout]. simpl.
    destruct (decide (u ∈ ns.*1)) as [Hu | Hu].
    + split; [intros _; apply Hin, Hu|]. intros Hnot.
      exfalso. apply Hnot. right. exact Hu.
    + rewrite (Hout Hu). split.
      * intros [-> | Hu']%elem_of_cons; [apply lookup_insert_eq | contradiction].
      * intros Hnot. apply lookup_insert_ne. intros ->. apply Hnot. left.
Qed.

(** With ids free of apostrophes, every node the loop passes has an element
    in the tree afterwards, and elements already there stay. *)
Lemma node_loop_present node_prefix ns :
  forall nid_map root nid_map' root',
  (forall nid, nid ∈ ns.*1 -> contains_char "'"%char (node_prefix +:+ nid) = false) ->
  foldM (node_step L node_prefix) (nid_map, root) ns = Ok (nid_map', root') ->
  forall nid, nid ∈ ns.*1 -> node_prefix +:+ nid ∈ n_id <$> nodes root'.
Proof.
  induction ns as [|[nid a] ns IH]; intros nid_map root nid_map' root' Hq H u Hu;
    simpl in H, Hu; [inversion Hu|].
  apply bind_Ok_inv in H as ([m1 root1] & Hstep & Hrest).
  apply elem_of_cons in Hu as [-> | Hu].
  - apply node_step_Ok_inv in Hstep as (found & Hfind & _ & Hfound & Hnew).
    destruct (node_loop_inv L _ _ _ _ _ _ Hrest) as (_ & added & Hnodes & _).
    rewrite Hnodes, fmap_app. apply elem_of_app. left.
    unfold find_node in Hfind. rewrite (Hq nid) in Hfind by (simpl; left).
    injection Hfind as Hfind. destruct found.
    + rewrite (Hfound eq_refl). apply existsb_id_true. exact Hfind.
    + destruct (Hnew eq_refl) as (_ & n & Hid & ->).
      rewrite fmap_app. apply elem_of_app. right. simpl. rewrite Hid. left.
  - apply (IH _ _ _ _ (fun nid' Hin => Hq nid' (list_elem_of_further _ _ _ Hin)) Hrest).
    exact Hu.
Qed.

(** With ids free of apostrophes the test before [add_node] keeps the ids
    of the node elements distinct, whatever the graph holds; and it adds
    nothing for nodes that all have their element already. *)
Lemma node_loop_distinct node_prefix ns :
  forall nid_map root nid_map' root',
  (forall nid, nid ∈ ns.*1 -> contains_char "'"%char (node_prefix +:+ nid) = false) ->
  foldM (node_step L node_prefix) (nid_map, root) ns = Ok (nid_map', root') ->
  (NoDup (n_id <$> nodes root) -> NoDup (n_id <$> nodes root')) /\
  ((forall nid, nid ∈ ns.*1 -> node_prefix +:+ nid ∈ n_id <$> nodes root) ->
   root' = root).
Proof.
  induction ns as [|[nid a] ns IH]; intros nid_map root nid_map' root' Hq H; simpl in H.
  - injection H as <- <-. auto.
  - apply bind_Ok_inv in H as ([m1 root1] & Hstep & Hrest).
    apply node_step_Ok_inv in Hstep as (found & Hfind & _ & Hfound & Hnew).
    unfold find_node in Hfind. rewrite (Hq nid) in Hfind by (simpl; left).
    injection Hfind as Hfind.
    destruct (IH _ _ _ _ (fun nid' Hin => Hq nid' (list_elem_of_further _ _ _ Hin)) Hrest)
      as [IHnd IHsame].
    destruct found.
    + rewrite (Hfound eq_refl) in *. split; [exact IHnd|].
      intros Hall. apply IHsame. intros nid' Hin. apply Hall. simpl. right. exact Hin.
    + destruct (Hnew eq_refl) as (Hl & n & Hid & Hn). split.
      * intros Hnd. apply IHnd. rewrite Hn, fmap_app. simpl. rewrite Hid.
        apply NoDup_app. split; [exact Hnd|]. split; [|apply NoDup_singleton].
        intros x Hx ->%list_elem_of_singleton.
        exact (existsb_id_false_inv _ _ Hfind Hx).
      * intros Hall. exfalso.
        apply (existsb_id_false_inv _ _ Hfind). apply Hall. simpl. left.
Qed.

(** What a pass of the link loop that succeeds has appended. *)
Lemma edge_step_links g link_prefix default_speed modes nid_map seq root u v edata
    seq' root' :
  edge_step L g link_prefix default_speed modes nid_map (seq, root) (u, v, edata)
    = Ok (seq', root') ->
  exists src tgt len spd,
    nid_map !! u = Some src /\ nid_map !! v = Some tgt /\
    edge_length L g u v edata = Ok len /\
    edge_freespeed L default_speed edata = Ok spd /\
    nodes root' = nodes root /\
    links root' = links root ++
      link_attr L (link_prefix +:+ pretty seq) src tgt len spd modes
        DEFAULT_CAPACITY DEFAULT_LANES ::
      (if edge_oneway L edata then []
       else [link_attr L (link_prefix +:+ pretty (seq + 1)%N) tgt src len spd modes
               DEFAULT_CAPACITY DEFAULT_LANES]).
Proof.
  intros H.
  destruct (edge_step_Ok_inv _ _ _ _ _ _ _ _ _ _ _ _ _ H)
    as (src & tgt & len & spd & Hu & Hv & Hlen & Hspd).
  rewrite (edge_step_resolved L g link_prefix default_speed modes nid_map seq root
             u v edata src tgt len spd Hu Hv Hlen Hspd) in H.
  exists src, tgt, len, spd. repeat (split; [assumption|]).
  destruct (edge_oneway L edata); injection H as <- <-; split; reflexivity.
Qed.

(** Every link the loop appends is the link of one of the edges, forward or
    reverse, built by [link_attr] with the default capacity and lanes. *)
Lemma edge_loop_links g link_prefix default_speed modes nid_map es :
  forall seq root seq' root',
  foldM (edge_step L g link_prefix default_speed modes nid_map) (seq, root) es
    = Ok (seq', root') ->
  exists new,
    links root' = links root ++ new /\
    forall l, l ∈ new ->
      exists u v edata src tgt len spd id,
        (u, v, edata) ∈ es /\
        nid_map !! u = Some src /\ nid_map !! v = Some tgt /\
        edge_length L g u v edata = Ok len /\
        edge_freespeed L default_speed edata = Ok spd /\
        (l = link_attr L id src tgt len spd modes DEFAULT_CAPACITY DEFAULT_LANES \/
         edge_oneway L edata = false /\
         l = link_attr L id tgt src len spd modes DEFAULT_CAPACITY DEFAULT_LANES).
Proof.
  induction es as [|[[u v] edata] es IH]; intros seq root seq' root' H; simpl in H.
  - injection H as <- <-. exists []. rewrite app_nil_r. split; [reflexivity|].
    intros l Hl. inversion Hl.
  - apply bind_Ok_inv in H as ([seq1 root1] & Hstep & Hrest).
    apply edge_step_links in Hstep
      as (src & tgt & len & spd & Hu & Hv & Hlen & Hspd & _ & Hl1).
    apply IH in Hrest as (new2 & Hl2 & Hall).
    eexists. split; [rewrite Hl2, Hl1, <- app_assoc; reflexivity|].
    intros l [Hl | Hl]%elem_of_app.
    + exists u, v, edata, src, tgt, len, spd.
      apply elem_of_cons in Hl as [-> | Hl].
      * eexists. split; [left|]. repeat (split; [assumption|]). left. reflexivity.
      * destruct (edge_oneway L edata) eqn:Hone; [inversion Hl|].
        apply list_elem_of_singleton in Hl as ->.
        eexists. split; [left|]. repeat (split; [assumption|]). right. auto.
    + destruct (Hall l Hl) as (u' & v' & e' & s' & t' & len' & spd' & id' & Hin & Hrest').
      exists u', v', e', s', t', len', spd', id'. split; [right; exact Hin | exact Hrest'].
Qed.

(** X6. Each link of a converted graph joins the prefixed endpoints of one of
    its edges, in the edge's direction or, for a two-way edge, in the
    reverse; and, the ids being free of apostrophes, both ends are ids of
    node elements of the tree. *)
Theorem links_join_nodes g root node_prefix link_prefix default_speed modes root' :
  graph_to_matsim L g root node_prefix link_prefix default_speed modes = Ok root' ->
  exists new,
    links root' = links root ++ new /\
    (forall l, l ∈ new ->
       exists u v edata,
         (u, v, edata) ∈ g_edges g /\
         u ∈ (g_nodes g).*1 /\ v ∈ (g_nodes g).*1 /\
         (l_from l = node_prefix +:+ u /\ l_to l = node_prefix +:+ v \/
          edge_oneway L edata = false /\
          l_from l = node_prefix +:+ v /\ l_to l = node_prefix +:+ u)) /\
    ((forall nid, nid ∈ (g_nodes g).*1 ->
        contains_char "'"%char (node_prefix +:+ nid) = false) ->
     forall l, l ∈ new ->
       l_from l ∈ n_id <$> nodes root' /\ l_to l ∈ n_id <$> nodes root').
Proof.
  unfold graph_to_matsim. intros H.
  apply bind_Ok_inv in H as ([nid_map root1] & Hnodes & H).
  apply bind_Ok_inv in H as ([seq root2] & Hedges & H). injection H as <-.
  destruct (node_loop_inv L _ _ _ _ _ _ Hnodes) as (Hlinks1 & _).
  destruct (edge_loop_inv L _ _ _ _ _ _ _ _ _ _ Hedges) as (Hnodes2 & _).
  destruct (edge_loop_links _ _ _ _ _ _ _ _ _ _ Hedges) as (new & Hl & Hall).
  assert (Hmap : forall u p, nid_map !! u = Some p ->
            u ∈ (g_nodes g).*1 /\ p = node_prefix +:+ u).
  { intros u p Hp. destruct (node_loop_nid_map _ _ _ _ _ _ Hnodes u) as [Hin Hout].
    destruct (decide (u ∈ (g_nodes g).*1)) as [Hu | Hu].
    - split; [exact Hu|]. rewrite (Hin Hu) in Hp. congruence.
    - rewrite (Hout Hu), lookup_empty in Hp. discriminate. }
  assert (Hends : forall l, l ∈ new ->
            exists u v edata,
              (u, v, edata) ∈ g_edges g /\
              u ∈ (g_nodes g).*1 /\ v ∈ (g_nodes g).*1 /\
              (l_from l = node_prefix +:+ u /\ l_to l = node_prefix +:+ v \/
               edge_oneway L edata = false /\
               l_from l = node_prefix +:+ v /\ l_to l = node_prefix +:+ u)).
  { intros l Hin.
    destruct (Hall l Hin)
      as (u & v & edata & src & tgt & len & spd & id & He & Hu & Hv & _ & _ & Hform).
    destruct (Hmap u src Hu) as [Hun ->]. destruct (Hmap v tgt Hv) as [Hvn ->].
    exists u, v, edata. repeat (split; [assumption|]).
    destruct Hform as [-> | [Hone ->]]; [left | right]; simpl; auto. }
  exists new. split; [rewrite Hl, Hlinks1; reflexivity|]. split; [exact Hends|].
  intros Hq l Hin. rewrite Hnodes2.
  pose proof (node_loop_present _ _ _ _ _ _ Hq Hnodes) as Hpresent.
  destruct (Hends l Hin) as (u & v & edata & _ & Hu & Hv & [[-> ->] | (_ & -> & ->)]);
    split; apply Hpresent; assumption.
Qed.

(** X7. Every link of the merged network has the default capacity and the
    default number of lanes, and the mode tag of its graph. *)
Theorem links_carry_defaults drive_g walk_g root :
  merge_graphs L drive_g walk_g = Ok root ->
  forall l, l ∈ links root ->
    l_capacity l = format_fixed L 1 (F.of_Z 1000) /\
    l_permlanes l = "1" /\
    (l_modes l = "car" \/ l_modes l = "walk").
Proof.
  unfold merge_graphs, graph_to_matsim. intros H l Hin.
  apply bind_Ok_inv in H as (root1 & Hdrive & Hwalk).
  apply bind_Ok_inv in Hdrive as ([m1 r1] & Hn1 & Hdrive).
  apply bind_Ok_inv in Hdrive as ([s1 r1'] & He1 & Hdrive). injection Hdrive as <-.
  apply bind_Ok_inv in Hwalk as ([m2 r2] & Hn2 & Hwalk).
  apply bind_Ok_inv in Hwalk as ([s2 r2'] & He2 & Hwalk). injection Hwalk as <-.
  destruct (node_loop_inv L _ _ _ _ _ _ Hn1) as (Hk1 & _).
  destruct (node_loop_inv L _ _ _ _ _ _ Hn2) as (Hk2 & _).
  destruct (edge_loop_links _ _ _ _ _ _ _ _ _ _ He1) as (new1 & Hl1 & Hall1).
  destruct (edge_loop_links _ _ _ _ _ _ _ _ _ _ He2) as (new2 & Hl2 & Hall2).
  rewrite Hl2, Hk2, Hl1, Hk1 in Hin. simpl in Hin.
  apply elem_of_app in Hin as [Hin | Hin].
  - destruct (Hall1 l Hin)
      as (u & v & e & s & t & len & spd & id & _ & _ & _ & _ & _ & [-> | [_ ->]]);
      simpl; auto.
  - destruct (Hall2 l Hin)
      as (u & v & e & s & t & len & spd & id & _ & _ & _ & _ & _ & [-> | [_ ->]]);
      simpl; auto.
Qed.

(** X8. With ids free of apostrophes a conversion keeps the ids of the node
    elements distinct whether or not the graph repeats an id, and converting
    a graph whose nodes all have their element adds no node element. *)
Theorem nodes_not_added_twice g root node_prefix link_prefix default_speed modes root' :
  (forall nid, nid ∈ (g_nodes g).*1 ->
     contains_char "'"%char (node_prefix +:+ nid) = false) ->
  graph_to_matsim L g root node_prefix link_prefix default_speed modes = Ok root' ->
  (NoDup (n_id <$> nodes root) -> NoDup (n_id <$> nodes root')) /\
  ((forall nid, nid ∈ (g_nodes g).*1 -> node_prefix +:+ nid ∈ n_id <$> nodes root) ->
   nodes root' = nodes root).
Proof.
  unfold graph_to_matsim. intros Hq H.
  apply bind_Ok_inv in H as ([nid_map root1] & Hnodes & H).
  apply bind_Ok_inv in H as ([seq root2] & Hedges & H). injection H as <-.
  destruct (edge_loop_inv L _ _ _ _ _ _ _ _ _ _ Hedges) as (Hnodes2 & _).
  destruct (node_loop_distinct _ _ _ _ _ _ Hq Hnodes) as [Hnd Hsame].
  rewrite Hnodes2. split; [exact Hnd|].
  intros Hall. rewrite (Hsame Hall). reflexivity.
Qed.

End Integrity.

Lemma links_join_nodes_witness :
  Forall (fun l => l_from l ∈ n_id <$> nodes Sample.walk_only /\
                   l_to l ∈ n_id <$> nodes Sample.walk_only)
         (links Sample.walk_only).
Proof.
  apply Forall_forall.
  assert (Hrun : graph_to_matsim Sample.libs Sample.walk_graph build_network_root
                   "p_" "walk_" WALK_DEFAULT_SPEED "walk" = Ok Sample.walk_only)
    by (vm_compute; reflexivity).
  destruct (links_join_nodes Sample.libs _ _ _ _ _ _ _ Hrun) as (new & Hl & _ & Hint).
  change (links Sample.walk_only = new) in Hl. rewrite Hl. apply Hint.
  intros nid Hin. simpl in Hin.
  repeat (apply elem_of_cons in Hin as [-> | Hin]; [reflexivity|]).
  inversion Hin.
Defined.

Lemma links_carry_defaults_witness :
  Forall (fun l => l_capacity l = format_fixed Sample.libs 1 (F.of_Z 1000) /\
                   l_permlanes l = "1" /\
                   (l_modes l = "car" \/ l_modes l = "walk"))
         (links Sample.merged).
Proof.
  apply Forall_forall.
  apply (links_carry_defaults Sample.libs Sample.drive_graph Sample.walk_graph).
  vm_compute; reflexivity.
Defined.

Lemma nodes_not_added_twice_witness :
  nodes Sample.merged_again = nodes Sample.merged.
Proof.
  assert (Hrun : graph_to_matsim Sample.libs Sample.drive_graph Sample.merged
                   "v_" "car_" CAR_DEFAULT_SPEED "car" = Ok Sample.merged_again)
    by (vm_compute; reflexivity).
  assert (Hq : forall nid, nid ∈ (g_nodes Sample.drive_graph).*1 ->
                 contains_char "'"%char ("v_" +:+ nid) = false).
  { intros nid Hin. simpl in Hin.
    repeat (apply elem_of_cons in Hin as [-> | Hin]; [reflexivity|]).
    inversion Hin. }
  destruct (nodes_not_added_twice Sample.libs _ _ _ _ _ _ _ Hq Hrun) as [_ Hsame].
  apply Hsame. intros nid Hin. simpl in Hin.
  repeat (apply elem_of_cons in Hin as [-> | Hin];
          [vm_compute; repeat constructor|]).
  inversion Hin.
Defined.

(** ** More on one edge *)

Lemma existsb_eqb_elem (x : string) (l : list string) :
  existsb (String.eqb x) l = true <-> x ∈ l.
Proof.
  induction l as [|y l IH]; simpl.
  - split; [discriminate | intros H; inversion H].
  - rewrite orb_true_iff, IH, elem_of_cons, String.eqb_eq. reflexivity.
Qed.

Lemma nonempty_str_truthy (s : string) : s <> "" -> truthy (PyStr s) = true.
Proof. intros H. simpl. apply negb_true_iff, String.eqb_neq, H. Qed.

(** [a or b or c] when the first truthy operand is [a] or [b]. *)
Lemma py_or_select (a b c : option py_val) (v : py_val) :
  a = Some v \/ (truthy_opt a = false /\ b = Some v) -> truthy v = true ->
  py_or (py_or a b) c = Some v.
Proof.
  intros [-> | [Ha ->]] Ht.
  - unfold py_or. simpl. rewrite Ht. simpl. rewrite Ht. reflexivity.
  - unfold py_or at 2. rewrite Ha. unfold py_or. simpl. rewrite Ht. reflexivity.
Qed.

Section MoreEdges.
Variable L : Libs.
Variables (g : graph) (link_prefix : string) (default_speed : float) (modes : string).

(** X9. An edge whose oneway attribute, turned into a string and lower-cased,
    is "true", "1" or "yes" yields exactly one link from source to target:
    so for "TRUE" and "Yes", for the boolean True and for the integer 1. *)
Theorem explicit_oneway_single_link nid_map seq root u v edata src tgt len spd flag :
  nid_map !! u = Some src -> nid_map !! v = Some tgt ->
  edge_length L g u v edata = Ok len ->
  edge_freespeed L default_speed edata = Ok spd ->
  edata !! "oneway" = Some flag ->
  lower (py_str L flag) ∈ ["true"; "1"; "yes"] ->
  edge_step L g link_prefix default_speed modes nid_map (seq, root) (u, v, edata)
    = Ok ((seq + 1)%N,
          {| nodes := nodes root;
             links := links root ++
               [link_attr L (link_prefix +:+ pretty seq) src tgt len spd modes
                  DEFAULT_CAPACITY DEFAULT_LANES] |})
  /\ (lower (py_str L (PyStr "TRUE")) = "true" /\ lower (py_str L (PyStr "Yes")) = "yes" /\
      lower (py_str L (PyBool true)) = "true" /\ lower (py_str L (PyInt 1)) = "1").
Proof.
  intros Hu Hv Hlen Hspd Hflag Hword. split; [|repeat split].
  rewrite (edge_step_resolved L g link_prefix default_speed modes nid_map seq root
             u v edata src tgt len spd Hu Hv Hlen Hspd).
  rewrite (edge_oneway_flag L edata flag Hflag). unfold flag_truthy.
  apply existsb_eqb_elem in Hword. unfold truthy_words. rewrite Hword. reflexivity.
Qed.

(** X10. Any explicit length that is a number other than zero is the length of
    the link as it stands: the code has no test that it is positive, so a
    negative length and a NaN pass through. *)
Theorem nonzero_length_unchecked u v edata val x :
  numeric val = true -> py_float L val = Ok x -> F.eqb x F.zero = false ->
  edata !! "distance" = Some val \/
    (truthy_opt (edata !! "distance") = false /\ edata !! "length" = Some val) ->
  edge_length L g u v edata = Ok x
  /\ F.eqb (F.of_Z (-5)) F.zero = false /\ F.ltb (F.of_Z (-5)) F.zero = true
  /\ F.eqb S754_nan F.zero = false.
Proof.
  intros Hnum Hval Hnz Hattr. split; [|repeat split].
  assert (Ht : truthy val = true).
  { destruct val as [s|z|f|b]; simpl in *; try discriminate.
    - destruct (Z.eqb_spec z 0) as [->|]; [|reflexivity].
      vm_compute in Hval. injection Hval as <-. discriminate Hnz.
    - injection Hval as ->. rewrite Hnz. reflexivity. }
  unfold edge_length. rewrite (py_or_select _ _ _ _ Hattr Ht). simpl.
  rewrite Hval. simpl. rewrite Hnz. reflexivity.
Qed.

(** A length or a speed given as a string that [float] rejects raises
    ValueError: nothing is put in its place. For the length the string is
    under distance, or under length with distance absent or falsy; for the
    speed under walking_speed, or under maxspeed with walking_speed absent or
    falsy. The pass of the link loop for such an edge fails. *)
Lemma text_number_raises edata s :
  float_of_str L s = None -> s <> "" ->
  (edata !! "distance" = Some (PyStr s) \/
   truthy_opt (edata !! "distance") = false /\ edata !! "length" = Some (PyStr s) ->
   forall u v, edge_length L g u v edata = Err (ValueError s))
  /\ (edata !! "walking_speed" = Some (PyStr s) \/
      truthy_opt (edata !! "walking_speed") = false /\
      edata !! "maxspeed" = Some (PyStr s) ->
      edge_freespeed L default_speed edata = Err (ValueError s)).
Proof.
  intros Hs Hne. pose proof (nonempty_str_truthy s Hne) as Ht. split.
  - intros Hattr u v.
    unfold edge_length. rewrite (py_or_select _ _ _ _ Hattr Ht). simpl.
    rewrite Hs. reflexivity.
  - intros Hattr.
    unfold edge_freespeed. rewrite (py_or_select _ _ _ _ Hattr Ht). simpl.
    rewrite Hs. reflexivity.
Qed.

Lemma edge_step_raises nid_map st u v edata :
  (exists e, edge_length L g u v edata = Err e) \/
  (exists e, edge_freespeed L default_speed edata = Err e) ->
  exists e, edge_step L g link_prefix default_speed modes nid_map st (u, v, edata)
            = Err e.
Proof.
  intros H. destruct st as [seq root]. unfold edge_step.
  destruct (getitem nid_map u) as [src|e]; [|simpl; eauto].
  destruct (getitem nid_map v) as [tgt|e]; [|simpl; eauto]. simpl.
  destruct H as [[e ->] | [e He]]; [simpl; eauto|].
  destruct (edge_length L g u v edata) as [len|e']; simpl; [|eauto].
  rewrite He. simpl. eauto.
Qed.

End MoreEdges.

Lemma explicit_oneway_single_link_witness :
  edge_step Sample.libs Sample.empty_graph "car_" CAR_DEFAULT_SPEED "car" Sample.names
    (0%N, build_network_root) ("A", "B", Sample.upper_case_way)
  = Ok (1%N,
        {| nodes := [];
           links :=
             [ link_attr Sample.libs "car_0" "v_A" "v_B" (F.of_Z 100) CAR_DEFAULT_SPEED
                 "car" DEFAULT_CAPACITY DEFAULT_LANES ] |}).
Proof.
  refine (proj1 (explicit_oneway_single_link Sample.libs Sample.empty_graph "car_"
            CAR_DEFAULT_SPEED "car" Sample.names 0%N build_network_root "A" "B"
            Sample.upper_case_way "v_A" "v_B" (F.of_Z 100) CAR_DEFAULT_SPEED
            (PyStr "TRUE") _ _ _ _ _ _)); try (vm_compute; reflexivity).
  apply list_elem_of_here.
Defined.

Lemma nonzero_length_unchecked_witness :
  edge_length Sample.libs Sample.empty_graph "A" "B" Sample.negative_length
  = Ok (F.of_Z (-5)).
Proof.
  refine (proj1 (nonzero_length_unchecked Sample.libs Sample.empty_graph "A" "B"
            Sample.negative_length (PyFloat (F.of_Z (-5))) (F.of_Z (-5)) _ _ _ _));
    try reflexivity.
  left. reflexivity.
Defined.

Lemma edge_length_fallback_xy_witness :
  edge_length Sample.libs Sample.drive_graph "A" "B" ∅
  = haversine Sample.libs (F.of_Z 127) (F.dec 375 1) (F.dec 12701 2) (F.dec 375 1).
Proof.
  apply (edge_length_fallback_xy Sample.libs Sample.drive_graph "A" "B" ∅
           (Sample.xy (F.of_Z 127) (F.dec 375 1))
           (Sample.xy (F.dec 12701 2) (F.dec 375 1))
           (PyFloat (F.of_Z 127)) (PyFloat (F.dec 375 1))
           (PyFloat (F.dec 12701 2)) (PyFloat (F.dec 375 1)));
    reflexivity.
Defined.

(** ** The run as a whole *)

Section Runs.
Variable L : Libs.

Lemma graph_to_matsim_bad_node g root node_prefix link_prefix default_speed modes nd :
  nd ∈ g_nodes g ->
  (forall st, exists e, node_step L node_prefix st nd = Err e) ->
  exists e, graph_to_matsim L g root node_prefix link_prefix default_speed modes = Err e.
Proof.
  intros Hin Hbad.
  destruct (foldM_raises _ nd (g_nodes g) Hin Hbad (∅, root)) as [e He].
  exists e. apply graph_to_matsim_node_error. exact He.
Qed.

Lemma graph_to_matsim_bad_edge g root node_prefix link_prefix default_speed modes ed :
  ed ∈ g_edges g ->
  (forall nid_map st,
     exists e, edge_step L g link_prefix default_speed modes nid_map st ed = Err e) ->
  exists e, graph_to_matsim L g root node_prefix link_prefix default_speed modes = Err e.
Proof.
  intros Hin Hbad. unfold graph_to_matsim.
  destruct (foldM (node_step L node_prefix) (∅, root) (g_nodes g))
    as [[nid_map root1]|e]; [|simpl; eauto].
  simpl.
  destruct (foldM_raises _ ed (g_edges g) Hin (Hbad nid_map) (0%N, root1)) as [e ->].
  simpl. eauto.
Qed.

Lemma merge_fails drive_g walk_g :
  (forall root, exists e,
     graph_to_matsim L drive_g root "v_" "car_" CAR_DEFAULT_SPEED "car" = Err e) \/
  (forall root, exists e,
     graph_to_matsim L walk_g root "p_" "walk_" WALK_DEFAULT_SPEED "walk" = Err e) ->
  exists e, merge_graphs L drive_g walk_g = Err e.
Proof.
  unfold merge_graphs. intros [Hd | Hw].
  - destruct (Hd build_network_root) as [e ->]. simpl. eauto.
  - destruct (graph_to_matsim L drive_g build_network_root "v_" "car_"
                CAR_DEFAULT_SPEED "car") as [root1|e]; simpl; [apply Hw | eauto].
Qed.

Lemma main_merge_error drive_graphml walk_graphml output fs drive_g walk_g :
  read_graph L fs drive_graphml = Ok drive_g ->
  read_graph L fs walk_graphml = Ok walk_g ->
  (exists e, merge_graphs L drive_g walk_g = Err e) ->
  exists e, merge_graphs L drive_g walk_g = Err e /\
            main L drive_graphml walk_graphml output fs = (Err e, fs).
Proof.
  intros Hrd Hrw [e He]. exists e. split; [exact He|].
  rewrite (main_after_read L _ _ _ _ _ _ Hrd Hrw), He. reflexivity.
Qed.

(** X12. A node whose longitude or latitude object is a string that [float]
    rejects is not given a default: its pass of the node loop raises (the
    ValueError of the conversion, when both objects are there), the merge
    fails and [main] ends with that error and has written nothing. *)
Theorem text_coordinate_aborts
    drive_graphml walk_graphml output fs drive_g walk_g nid a s :
  read_graph L fs drive_graphml = Ok drive_g ->
  read_graph L fs walk_graphml = Ok walk_g ->
  (nid, a) ∈ g_nodes drive_g ++ g_nodes walk_g ->
  float_of_str L s = None ->
  node_lon a = Some (PyStr s) \/ node_lat a = Some (PyStr s) ->
  (forall lat node_prefix st,
     node_lon a = Some (PyStr s) -> node_lat a = Some lat ->
     node_step L node_prefix st (nid, a) = Err (ValueError s))
  /\ (exists e, merge_graphs L drive_g walk_g = Err e /\
        main L drive_graphml walk_graphml output fs = (Err e, fs)).
Proof.
  intros Hrd Hrw Hin Hs Hcoord. split.
  - intros lat node_prefix [nid_map root] Hlon Hlat. unfold node_step.
    rewrite Hlon, Hlat. simpl. rewrite Hs. reflexivity.
  - apply (main_merge_error _ _ _ _ _ _ Hrd Hrw), merge_fails.
    assert (Hbad : forall node_prefix st,
              exists e, node_step L node_prefix st (nid, a) = Err e).
    { intros node_prefix [nid_map root]. unfold node_step.
      destruct Hcoord as [Hlon | Hlat].
      - rewrite Hlon. destruct (node_lat a); [|eauto]. simpl. rewrite Hs. simpl. eauto.
      - rewrite Hlat. destruct (node_lon a) as [lon|]; [|eauto].
        destruct (py_float L lon); simpl; [|eauto]. rewrite Hs. simpl. eauto. }
    apply elem_of_app in Hin as [Hin | Hin]; [left | right]; intros root;
      eapply graph_to_matsim_bad_node; eauto.
Qed.

(** X13. An edge whose length or speed is a string that [float] rejects (a speed
    with its unit, say) makes the merge fail, and [main] ends with the error
    and has written nothing. *)
Theorem text_number_aborts
    drive_graphml walk_graphml output fs drive_g walk_g u v edata s :
  read_graph L fs drive_graphml = Ok drive_g ->
  read_graph L fs walk_graphml = Ok walk_g ->
  (u, v, edata) ∈ g_edges drive_g ++ g_edges walk_g ->
  float_of_str L s = None -> s <> "" ->
  (edata !! "distance" = Some (PyStr s) \/
   truthy_opt (edata !! "distance") = false /\ edata !! "length" = Some (PyStr s)) \/
  (edata !! "walking_speed" = Some (PyStr s) \/
   truthy_opt (edata !! "walking_speed") = false /\
   edata !! "maxspeed" = Some (PyStr s)) ->
  exists e, merge_graphs L drive_g walk_g = Err e /\
            main L drive_graphml walk_graphml output fs = (Err e, fs).
Proof.
  intros Hrd Hrw Hin Hs Hne Hattr.
  apply (main_merge_error _ _ _ _ _ _ Hrd Hrw), merge_fails.
  assert (Hbad : forall g link_prefix default_speed modes nid_map st,
            exists e, edge_step L g link_prefix default_speed modes nid_map st
                        (u, v, edata) = Err e).
  { intros g link_prefix default_speed modes nid_map st. apply edge_step_raises.
    destruct (text_number_raises L g default_speed edata s Hs Hne) as [Hlen Hspd].
    destruct Hattr as [Hl | Hv]; [left | right]; eexists; eauto. }
  apply elem_of_app in Hin as [Hin | Hin]; [left | right]; intros root;
    eapply graph_to_matsim_bad_edge; eauto.
Qed.


End Runs.

Lemma text_coordinate_aborts_witness :
  main Sample.libs_more "text.graphml" "walk.graphml" "net.xml" Sample.disk_more
  = (Err (ValueError "east"), Sample.disk_more).
Proof.
  destruct (text_coordinate_aborts Sample.libs_more "text.graphml" "walk.graphml"
              "net.xml" Sample.disk_more Sample.text_coord_graph Sample.walk_graph
              "A" {[ "x" := PyStr "east"; "y" := PyFloat (F.dec 375 1) ]} "east")
    as (_ & e & Hmerge & Hmain).
  - vm_compute; reflexivity.
  - vm_compute; reflexivity.
  - apply elem_of_app. left. apply list_elem_of_here.
  - reflexivity.
  - left. reflexivity.
  - assert (He : merge_graphs Sample.libs_more Sample.text_coord_graph Sample.walk_graph
                 = Err (ValueError "east")) by (vm_compute; reflexivity).
    rewrite He in Hmerge. injection Hmerge as <-. exact Hmain.
Defined.

Lemma text_number_aborts_witness :
  main Sample.libs_more "mph.graphml" "walk.graphml" "net.xml" Sample.disk_more
  = (Err (ValueError "30 mph"), Sample.disk_more).
Proof.
  destruct (text_number_aborts Sample.libs_more "mph.graphml" "walk.graphml"
              "net.xml" Sample.disk_more Sample.mph_graph Sample.walk_graph
              "A" "B" Sample.mph_edge "30 mph")
    as (e & Hmerge & Hmain).
  - vm_compute; reflexivity.
  - vm_compute; reflexivity.
  - apply elem_of_app. left. apply list_elem_of_here.
  - reflexivity.
  - discriminate.
  - right. right. split; reflexivity.
  - assert (He : merge_graphs Sample.libs_more Sample.mph_graph Sample.walk_graph
                 = Err (ValueError "30 mph")) by (vm_compute; reflexivity).
    rewrite He in Hmerge. injection Hmerge as <-. exact Hmain.
Defined.


(** ** The pretty-print helper *)

Lemma element_children_ind (P : element -> Prop) :
  (forall tag attrib text tail children,
     Forall P children -> P (Element tag attrib text tail children)) ->
  forall e, P e.
Proof.
  intros H. fix IH 1. intros [tag attrib text tail children]. apply H.
  induction children as [|c children IHc]; constructor; [apply IH | exact IHc].
Qed.

Lemma str_times_comm (s : string) (n : nat) : str_times s n +:+ s = s +:+ str_times s n.
Proof.
  induction n as [|n IH]; simpl; [rewrite append_empty_r; reflexivity|].
  rewrite append_assoc, IH. reflexivity.
Qed.

Lemma indent_pad_S (level : nat) : indent_pad level +:+ "  " = indent_pad (S level).
Proof.
  unfold indent_pad. rewrite append_assoc. f_equal. apply (str_times_comm "  " level).
Qed.

Lemma update_last_length {A : Type} (f : A -> A) (l : list A) :
  length (update_last f l) = length l.
Proof.
  induction l as [|x [|y l] IH]; [reflexivity | reflexivity|].
  change (S (length (update_last f (y :: l))) = S (length (y :: l))).
  f_equal. exact IH.
Qed.


Lemma update_last_map {A B : Type} (f : A -> A) (g : A -> B) (l : list A) :
  (forall x, g (f x) = g x) -> map g (update_last f l) = map g l.
Proof.
  intros Hgf. induction l as [|x [|y l] IH]; [reflexivity | simpl; rewrite Hgf; reflexivity|].
  change (g x :: map g (update_last f (y :: l)) = g x :: map g (y :: l)).
  f_equal. exact IH.
Qed.

Section IndentProps.
Variable str_blank : string -> bool.
Hypothesis pads_blank : forall level, str_blank (indent_pad level) = true.

Lemma blank_pad (level : nat) : blank str_blank (Some (indent_pad level)) = true.
Proof. unfold blank. rewrite pads_blank. apply orb_true_r. Qed.


Lemma indent_set_tail (t : option string) (e : element) (level : nat) :
  _indent str_blank (set_tail t e) level =
  set_tail (if negb (Nat.eqb level 0) && blank str_blank t
            then Some (indent_pad level) else t)
           (_indent str_blank e level).
Proof. destruct e. reflexivity. Qed.

Lemma content_pad_tail (level : nat) (e : element) :
  content str_blank (pad_tail str_blank (indent_pad level) e) = content str_blank e.
Proof.
  unfold pad_tail. destruct e as [tag attrib text tail children]. simpl elem_tail.
  destruct (blank str_blank tail) eqn:Hb; [|reflexivity].
  cbn [set_tail content]. rewrite blank_pad, Hb. reflexivity.
Qed.

(** X14. The helper changes the layout only: tags, attributes, children, and all
    text and tails that are not blank stay as they are; what it writes is
    blank. *)
Theorem indent_keeps_content (e : element) :
  forall level, content str_blank (_indent str_blank e level) = content str_blank e.
Proof.
  induction e as [tag attrib text tail children IH] using element_children_ind.
  intros level. cbn [_indent content]. f_equal.
  - destruct children; [reflexivity|].
    destruct (blank str_blank text) eqn:Hb; [|rewrite Hb; reflexivity].
    rewrite indent_pad_S, blank_pad. reflexivity.
  - destruct (negb (level =? 0)%nat && blank str_blank tail) eqn:Hc; [|reflexivity].
    apply andb_true_iff in Hc as [_ Hb]. rewrite blank_pad, Hb. reflexivity.
  - rewrite (update_last_map _ _ _ (content_pad_tail level)), map_map.
    apply map_ext_Forall. eapply Forall_impl; [exact IH|].
    intros c Hc. apply Hc.
Qed.

Lemma pad_tail_indent_pad_tail (level : nat) (d : element) :
  _indent str_blank d (S level) = d ->
  pad_tail str_blank (indent_pad level)
    (_indent str_blank (pad_tail str_blank (indent_pad level) d) (S level))
  = pad_tail str_blank (indent_pad level) d.
Proof.
  intros Hd. unfold pad_tail at 2 3.
  destruct (blank str_blank (elem_tail d)) eqn:Hb.
  - rewrite indent_set_tail, Hd. simpl negb. rewrite blank_pad. simpl andb.
    unfold pad_tail. destruct d as [tag attrib text tail children].
    cbn [set_tail elem_tail]. rewrite blank_pad. reflexivity.
  - rewrite Hd. unfold pad_tail. rewrite Hb. reflexivity.
Qed.

Lemma update_last_indent_again (level : nat) (l : list element) :
  Forall (fun d => _indent str_blank d (S level) = d) l ->
  update_last (pad_tail str_blank (indent_pad level))
    (map (fun c => _indent str_blank c (S level))
       (update_last (pad_tail str_blank (indent_pad level)) l))
  = update_last (pad_tail str_blank (indent_pad level)) l.
Proof.
  induction l as [|x [|y l] IH]; intros Hall; [reflexivity | |].
  - apply Forall_cons in Hall as [Hx _]. simpl.
    rewrite (pad_tail_indent_pad_tail level x Hx). reflexivity.
  - apply Forall_cons in Hall as [Hx Hall].
    change (update_last (pad_tail str_blank (indent_pad level)) (x :: y :: l))
      with (x :: update_last (pad_tail str_blank (indent_pad level)) (y :: l)).
    specialize (IH Hall).
    destruct (update_last (pad_tail str_blank (indent_pad level)) (y :: l))
      as [|z rest] eqn:Hrest.
    { apply (f_equal length) in Hrest. rewrite update_last_length in Hrest.
      discriminate Hrest. }
    simpl map. simpl map in IH.
    change (update_last (pad_tail str_blank (indent_pad level))
              (_indent str_blank x (S level) :: _indent str_blank z (S level)
                 :: map (fun c => _indent str_blank c (S level)) rest))
      with (_indent str_blank x (S level) ::
            update_last (pad_tail str_blank (indent_pad level))
              (_indent str_blank z (S level)
                 :: map (fun c => _indent str_blank c (S level)) rest)).
    rewrite IH, Hx. reflexivity.
Qed.

(** X15. Laying out a tree that is laid out changes nothing. *)
Theorem indent_idempotent (e : element) :
  forall level,
  _indent str_blank (_indent str_blank e level) level = _indent str_blank e level.
Proof.
  induction e as [tag attrib text tail children IH] using element_children_ind.
  intros level. cbn [_indent]. f_equal.
  - destruct children as [|c children]; [reflexivity|].
    assert (Hne : exists c' cs',
              update_last (pad_tail str_blank (indent_pad level))
                (map (fun child => _indent str_blank child (S level)) (c :: children))
              = c' :: cs').
    { destruct (update_last _ _) as [|c' cs'] eqn:Hu; [|eauto].
      apply (f_equal length) in Hu. rewrite update_last_length in Hu.
      discriminate Hu. }
    destruct Hne as (c' & cs' & ->).
    destruct (blank str_blank text) eqn:Hb; [|rewrite Hb; reflexivity].
    rewrite indent_pad_S, blank_pad. reflexivity.
  - destruct (negb (level =? 0)%nat) eqn:Hl; simpl; [|reflexivity].
    destruct (blank str_blank tail) eqn:Hb; [|rewrite Hb; reflexivity].
    rewrite blank_pad. reflexivity.
  - apply update_last_indent_again. apply Forall_map.
    eapply Forall_impl; [exact IH|]. intros c Hc. apply Hc.
Qed.


End IndentProps.

Lemma ascii_pads_blank (level : nat) : Sample.ascii_blank (indent_pad level) = true.
Proof.
  unfold indent_pad, newline. rewrite append_cons, append_nil.
  cbn [Sample.ascii_blank]. replace (Sample.ascii_space (ascii_of_nat 10)) with true
    by reflexivity.
  simpl andb. induction level as [|level IH]; [reflexivity|].
  cbn [str_times]. rewrite !append_cons, append_nil. cbn [Sample.ascii_blank].
  rewrite IH. reflexivity.
Qed.

Lemma indent_keeps_content_witness :
  content Sample.ascii_blank (_indent Sample.ascii_blank Sample.mixed_tree 0)
  = content Sample.ascii_blank Sample.mixed_tree.
Proof.
  apply (indent_keeps_content Sample.ascii_blank ascii_pads_blank).
Defined.

Lemma indent_idempotent_witness :
  _indent Sample.ascii_blank (_indent Sample.ascii_blank Sample.plain_tree 0) 0
  = _indent Sample.ascii_blank Sample.plain_tree 0.
Proof.
  apply (indent_idempotent Sample.ascii_blank ascii_pads_blank).
Defined.


(** The sample trees laid out: the network tree gets the indentation of the
    output format, and text of the document is left alone. *)
Example plain_tree_laid_out :
  _indent Sample.ascii_blank Sample.plain_tree 0 =
  Element "network" [] (Some (indent_pad 1)) None
    [ Element "nodes" [] (Some (indent_pad 2)) (Some (indent_pad 1))
        [ Element "node" [("id", "v_A")] None (Some (indent_pad 2)) [];
          Element "node" [("id", "v_B")] None (Some (indent_pad 1)) [] ];
      Element "links" [] None (Some (indent_pad 0)) [] ].
Proof. vm_compute. reflexivity. Qed.

Example mixed_tree_laid_out :
  _indent Sample.ascii_blank Sample.mixed_tree 0 =
  Element "p" [] (Some "Hello ") None
    [ Element "b" [] (Some "world") (Some "!") [];
      Element "br" [] None (Some (indent_pad 0)) [] ].
Proof. vm_compute. reflexivity. Qed.

(** ** decompress_population.py *)

Lemma endswith_spec (s suffix : string) :
  Decompress.endswith s suffix = true <-> exists pre, s = pre +:+ suffix.
Proof.
  unfold Decompress.endswith. rewrite andb_true_iff, Nat.leb_le, String.eqb_eq. split.
  - intros [Hle Hsub]. exists (substring 0 (String.length s - String.length suffix) s).
    assert (Hi : String.length s - String.length suffix <= String.length s) by lia.
    pose proof (substring_split s _ Hi) as Hsplit.
    replace (String.length s - (String.length s - String.length suffix))
      with (String.length suffix) in Hsplit by lia.
    rewrite Hsub in Hsplit. exact Hsplit.
  - intros [pre ->]. rewrite length_append. split; [lia|].
    replace (String.length pre + String.length suffix - String.length suffix)
      with (String.length pre) by lia.
    apply substring_append_r.
Qed.

Lemma drop_last3_xml_gz (pre : string) :
  Decompress.drop_last3 (pre +:+ ".xml.gz") = pre +:+ ".xml".
Proof.
  unfold Decompress.drop_last3.
  change (pre +:+ ".xml.gz") with (pre +:+ (".xml" +:+ ".gz")).
  rewrite <- append_assoc. apply drop_gz.
Qed.

(** A path that ends in ".xml" does not end in ".xml.gz". *)
Lemma xml_not_xml_gz (pre : string) :
  Decompress.endswith (pre +:+ ".xml") ".xml.gz" = false.
Proof.
  destruct (Decompress.endswith (pre +:+ ".xml") ".xml.gz") eqn:He; [|reflexivity].
  apply endswith_spec in He as [q Hq].
  pose proof (f_equal String.length Hq) as Hlen. rewrite !length_append in Hlen.
  simpl in Hlen.
  pose proof (append_correct2 pre ".xml" 3) as H1.
  pose proof (append_correct2 q ".xml.gz" 6) as H2.
  change (pre ++ ".xml")%string with (pre +:+ ".xml") in H1.
  change (q ++ ".xml.gz")%string with (q +:+ ".xml.gz") in H2.
  rewrite Hq in H1. replace (3 + String.length pre) with (6 + String.length q) in H1 by lia.
  rewrite <- H2 in H1. discriminate H1.
Qed.

Lemma xml_gz_neq_xml (pre q : string) : pre +:+ ".xml" <> q +:+ ".xml.gz".
Proof.
  intros H. pose proof (xml_not_xml_gz pre) as Hn. rewrite H in Hn.
  assert (Ht : Decompress.endswith (q +:+ ".xml.gz") ".xml.gz" = true)
    by (apply endswith_spec; eauto).
  congruence.
Qed.

Section DecompressProps.
Variable L : Libs.
Variable abspath : string -> string.
Variable getcwd : string.
Variable glob_xml_gz : files -> string -> list string.

Let decompress_file := Decompress.decompress_file L abspath.

(** What [decompress_file] does with the default output once the named file
    is there and is named *.xml.gz. *)
Lemma decompress_file_opened gz_filepath fs pre c :
  abspath gz_filepath = pre +:+ ".xml.gz" ->
  fs !! abspath gz_filepath = Some c ->
  decompress_file gz_filepath None fs =
    match gzip_decompress L c with
    | None => (Decompress.Raised Decompress.GzipError, delete (pre +:+ ".xml") fs)
    | Some data =>
        if String.eqb data ""
        then (Decompress.Raised Decompress.ZeroDivisionError, delete (pre +:+ ".xml") fs)
        else (Decompress.Returned (pre +:+ ".xml"), <[pre +:+ ".xml" := data]> fs)
    end.
Proof.
  intros Hp Hc. unfold decompress_file, Decompress.decompress_file.
  rewrite Hc, Hp.
  replace (Decompress.endswith (pre +:+ ".xml.gz") ".xml.gz") with true
    by (symmetry; apply endswith_spec; eauto).
  simpl negb. cbv iota. rewrite drop_last3_xml_gz.
  rewrite lookup_insert_ne by apply xml_gz_neq_xml.
  rewrite <- Hp, Hc. simpl.
  destruct (gzip_decompress L c) as [data|].
  - rewrite insert_insert_eq. destruct (String.eqb data "");
      [rewrite delete_insert_eq; reflexivity | reflexivity].
  - rewrite delete_insert_eq. reflexivity.
Qed.

(** X17. [decompress_file] with the default output succeeds exactly when the
    named file exists, is named *.xml.gz, decompresses, and not to nothing;
    it then returns the path without ".gz" and has written the data there,
    changing no other file. *)
Theorem decompress_file_success gz_filepath fs out fs' :
  decompress_file gz_filepath None fs = (Decompress.Returned out, fs') <->
  exists pre c data,
    abspath gz_filepath = pre +:+ ".xml.gz" /\
    fs !! abspath gz_filepath = Some c /\
    gzip_decompress L c = Some data /\ data <> "" /\
    out = pre +:+ ".xml" /\ fs' = <[pre +:+ ".xml" := data]> fs.
Proof.
  split.
  - intros H.
    destruct (fs !! abspath gz_filepath) as [c|] eqn:Hc;
      [|unfold decompress_file, Decompress.decompress_file in H; rewrite Hc in H;
        discriminate H].
    destruct (Decompress.endswith (abspath gz_filepath) ".xml.gz") eqn:He;
      [|unfold decompress_file, Decompress.decompress_file in H; rewrite Hc, He in H;
        discriminate H].
    apply endswith_spec in He as [pre Hp].
    rewrite (decompress_file_opened _ _ pre c Hp Hc) in H.
    destruct (gzip_decompress L c) as [data|] eqn:Hd; [|discriminate H].
    destruct (String.eqb_spec data ""); [discriminate H|].
    injection H as <- <-. exists pre, c, data. repeat split; assumption.
  - intros (pre & c & data & Hp & Hc & Hd & Hne & -> & ->).
    rewrite (decompress_file_opened _ _ pre c Hp Hc), Hd.
    destruct (String.eqb_spec data ""); [contradiction | reflexivity].
Qed.

(** X18. When the compressed stream cannot be read, or holds no data at all, the
    call raises and the output file is gone afterwards, also one that was
    there before the call; an empty payload is an error because the report
    divides by the size of the output. *)
Theorem decompress_file_failure_removes_output gz_filepath fs pre c :
  abspath gz_filepath = pre +:+ ".xml.gz" ->
  fs !! abspath gz_filepath = Some c ->
  gzip_decompress L c = None \/ gzip_decompress L c = Some "" ->
  exists e,
    decompress_file gz_filepath None fs
      = (Decompress.Raised e, delete (pre +:+ ".xml") fs) /\
    (gzip_decompress L c = None -> e = Decompress.GzipError) /\
    (gzip_decompress L c = Some "" -> e = Decompress.ZeroDivisionError) /\
    delete (pre +:+ ".xml") fs !! (pre +:+ ".xml") = None /\
    delete (pre +:+ ".xml") fs !! abspath gz_filepath = Some c.
Proof.
  intros Hp Hc Hbad. rewrite (decompress_file_opened _ _ pre c Hp Hc).
  assert (Hkeep : delete (pre +:+ ".xml") fs !! abspath gz_filepath = Some c).
  { rewrite lookup_delete_ne; [exact Hc|]. rewrite Hp. apply xml_gz_neq_xml. }
  destruct Hbad as [-> | ->]; eexists; (split; [reflexivity|]);
    repeat split; try congruence; try apply lookup_delete_eq.
Qed.

Lemma decompress_file_sources gz_filepath fs :
  let '(_, fs') := decompress_file gz_filepath None fs in
  (forall q, Decompress.endswith q ".xml.gz" = true -> fs' !! q = fs !! q) /\
  (fs !! abspath gz_filepath = None \/
   Decompress.endswith (abspath gz_filepath) ".xml.gz" = false -> fs' = fs).
Proof.
  destruct (fs !! abspath gz_filepath) as [c|] eqn:Hc;
    [|unfold decompress_file, Decompress.decompress_file; rewrite Hc;
      split; intros; reflexivity].
  destruct (Decompress.endswith (abspath gz_filepath) ".xml.gz") eqn:He;
    [|unfold decompress_file, Decompress.decompress_file; rewrite Hc, He;
      split; intros; reflexivity].
  apply endswith_spec in He as [pre Hp].
  assert (Ht : Decompress.endswith (abspath gz_filepath) ".xml.gz" = true)
    by (apply endswith_spec; eauto).
  rewrite (decompress_file_opened _ _ pre c Hp Hc).
  assert (Hother : forall q, Decompress.endswith q ".xml.gz" = true ->
            pre +:+ ".xml" <> q).
  { intros q [r ->]%endswith_spec. apply xml_gz_neq_xml. }
  destruct (gzip_decompress L c) as [data|]; [destruct (String.eqb data "")|];
    (split; [intros q Hq | intros [? | ?]; congruence]).
  - apply lookup_delete_ne, Hother, Hq.
  - apply lookup_insert_ne, Hother, Hq.
  - apply lookup_delete_ne, Hother, Hq.
Qed.

(** X19. Whatever its outcome, [decompress_file] with the default output leaves
    every file named *.xml.gz as it was, the one it reads included, and
    changes nothing at all unless the named file exists and is named
    *.xml.gz. *)
Theorem decompress_file_keeps_sources gz_filepath fs :
  let '(_, fs') := decompress_file gz_filepath None fs in
  (forall q, Decompress.endswith q ".xml.gz" = true -> fs' !! q = fs !! q) /\
  (fs !! abspath gz_filepath = None \/
   Decompress.endswith (abspath gz_filepath) ".xml.gz" = false -> fs' = fs).
Proof. apply decompress_file_sources. Qed.

(** X20. Naming the compressed file itself as the output destroys it: opening
    the output empties the file before it is read, the empty stream gives
    no data, the report fails on the empty output, and the clean-up removes
    the file. *)
Theorem decompress_file_onto_itself gz_filepath given fs c :
  fs !! abspath gz_filepath = Some c ->
  Decompress.endswith (abspath gz_filepath) ".xml.gz" = true ->
  abspath given = abspath gz_filepath ->
  gzip_decompress L "" = Some "" ->
  decompress_file gz_filepath (Some given) fs
    = (Decompress.Raised Decompress.ZeroDivisionError,
       delete (abspath gz_filepath) fs).
Proof.
  intros Hc He Hsame Hempty. unfold decompress_file, Decompress.decompress_file.
  rewrite Hc, He, Hsame. simpl negb. cbv iota.
  rewrite lookup_insert_eq. simpl. rewrite Hempty. simpl.
  rewrite !delete_insert_eq. reflexivity.
Qed.

End DecompressProps.

Lemma append_inj_r (a b x : string) : a +:+ x = b +:+ x -> a = b.
Proof.
  intros H. pose proof (f_equal String.length H) as Hlen. rewrite !length_append in Hlen.
  rewrite <- (substring_0_append a x), <- (substring_0_append b x), H.
  f_equal. lia.
Qed.

Lemma xml_payload_nonempty (L : Libs) (root : network) : xml_payload L root <> "".
Proof.
  intros H%(f_equal String.length). unfold xml_payload in H.
  rewrite length_append in H. simpl in H. lia.
Qed.

Section Batch.
Variable L : Libs.
Variable abspath : string -> string.
Variable getcwd : string.
Variable glob_xml_gz : files -> string -> list string.
Variable fs0 : files.

Let decompress_file := Decompress.decompress_file L abspath.
Let out (g : string) : string := Decompress.drop_last3 (abspath g).
Let kept (fs : files) : Prop :=
  forall q, Decompress.endswith q ".xml.gz" = true -> fs !! q = fs0 !! q.
Let step (st : nat * files) (gz_file : string) : nat * files :=
  let '(success_count, fs) := st in
  match decompress_file gz_file None fs with
  | (Decompress.Returned _, fs') => (S success_count, fs')
  | (Decompress.Raised _, fs') => (success_count, fs')
  end.

Lemma payload_Some g data :
  Decompress.payload L abspath fs0 g = Some data <->
  exists pre c, abspath g = pre +:+ ".xml.gz" /\ fs0 !! abspath g = Some c /\
                gzip_decompress L c = Some data /\ data <> "".
Proof.
  unfold Decompress.payload. split.
  - destruct (Decompress.endswith (abspath g) ".xml.gz") eqn:He; [|discriminate].
    apply endswith_spec in He as [pre Hp].
    destruct (fs0 !! abspath g) as [c|]; [|discriminate]. simpl.
    destruct (gzip_decompress L c) as [d|] eqn:Hd; [|discriminate].
    destruct (String.eqb_spec d ""); [discriminate|].
    intros [= <-]. exists pre, c. auto.
  - intros (pre & c & Hp & Hc & Hd & Hne).
    replace (Decompress.endswith (abspath g) ".xml.gz") with true
      by (symmetry; apply endswith_spec; eauto).
    rewrite Hc. simpl. rewrite Hd.
    destruct (String.eqb_spec data ""); [contradiction | reflexivity].
Qed.

(** One file of the batch, on files whose *.xml.gz are those of the start. *)
Lemma decompress_step g fs1 :
  kept fs1 ->
  exists r fs2,
    decompress_file g None fs1 = (r, fs2) /\ kept fs2 /\
    (forall q, q <> out g -> fs2 !! q = fs1 !! q) /\
    match Decompress.payload L abspath fs0 g with
    | Some data => r = Decompress.Returned (out g) /\ fs2 !! out g = Some data
    | None => (exists e, r = Decompress.Raised e) /\
              (fs2 = fs1 \/ exists pre c, abspath g = pre +:+ ".xml.gz" /\
                                          fs0 !! abspath g = Some c)
    end.
Proof.
  intros Hkept.
  pose proof (decompress_file_sources L abspath g fs1) as Hsrc.
  fold decompress_file in Hsrc.
  destruct (Decompress.endswith (abspath g) ".xml.gz") eqn:He.
  - pose proof He as [pre Hp]%endswith_spec.
    pose proof (Hkept _ He) as Hsame.
    destruct (fs0 !! abspath g) as [c|] eqn:Hc.
    + pose proof (decompress_file_opened L abspath g fs1 pre c Hp Hsame) as Hrun.
      fold decompress_file in Hrun. rewrite Hrun in Hsrc |- *.
      assert (Hout : out g = pre +:+ ".xml")
        by (unfold out; rewrite Hp; apply drop_last3_xml_gz).
      assert (Hpay : Decompress.payload L abspath fs0 g =
                match gzip_decompress L c with
                | Some data => if String.eqb data "" then None else Some data
                | None => None
                end).
      { unfold Decompress.payload. rewrite He, Hc. reflexivity. }
      rewrite Hpay, Hout.
      destruct (gzip_decompress L c) as [data|]; [destruct (String.eqb data "")|];
        eexists _, _; (split; [reflexivity|]); destruct Hsrc as [Hk _];
        (split; [intros q Hq; rewrite (Hk q Hq); apply Hkept, Hq|]).
      * split; [intros q Hq; apply lookup_delete_ne; congruence|]. eauto 10.
      * split; [intros q Hq; apply lookup_insert_ne; congruence|].
        split; [reflexivity | apply lookup_insert_eq].
      * split; [intros q Hq; apply lookup_delete_ne; congruence|]. eauto 10.
    + assert (Hpay : Decompress.payload L abspath fs0 g = None)
        by (unfold Decompress.payload; rewrite He, Hc; reflexivity).
      rewrite Hpay. unfold decompress_file, Decompress.decompress_file.
      rewrite Hsame. eexists _, _. split; [reflexivity|].
      split; [exact Hkept|]. split; [reflexivity|]. eauto.
  - assert (Hpay : Decompress.payload L abspath fs0 g = None)
      by (unfold Decompress.payload; rewrite He; reflexivity).
    rewrite Hpay. unfold decompress_file, Decompress.decompress_file. rewrite He.
    destruct (fs1 !! abspath g); simpl; eexists _, _; (split; [reflexivity|]);
      (split; [exact Hkept|]); (split; [reflexivity|]); eauto.
Qed.

Lemma out_same g g' data data' :
  Decompress.payload L abspath fs0 g' = Some data' ->
  out g = out g' ->
  (exists pre c, abspath g = pre +:+ ".xml.gz" /\ fs0 !! abspath g = Some c) ->
  Decompress.payload L abspath fs0 g = Some data -> data = data'.
Proof.
  intros Hg' Hout (pre & c & Hp & Hc) Hg.
  apply payload_Some in Hg' as (pre' & c' & Hp' & Hc' & Hd' & _).
  apply payload_Some in Hg as (pre2 & c2 & Hp2 & Hc2 & Hd2 & _).
  unfold out in Hout. rewrite Hp, Hp', !drop_last3_xml_gz in Hout.
  apply append_inj_r in Hout. subst pre'.
  rewrite Hp', <- Hp in Hc'. congruence.
Qed.

Lemma decompress_fold l :
  forall n fs1 done,
  kept fs1 ->
  (forall g data, g ∈ done -> Decompress.payload L abspath fs0 g = Some data ->
     fs1 !! out g = Some data) ->
  exists n' fs2,
    foldl step (n, fs1) l = (n', fs2) /\ kept fs2 /\
    n' = n + length (filter (fun g => is_Some (Decompress.payload L abspath fs0 g)) l) /\
    (forall g data, g ∈ done ++ l -> Decompress.payload L abspath fs0 g = Some data ->
       fs2 !! out g = Some data) /\
    (forall q, (forall g, g ∈ l -> q <> out g) -> fs2 !! q = fs1 !! q).
Proof.
  induction l as [|g l IH]; intros n fs1 done Hkept Hdone.
  - exists n, fs1. simpl. rewrite app_nil_r. repeat split; auto.
  - destruct (decompress_step g fs1 Hkept) as (r & fs2 & Hrun & Hkept2 & Hoth & Hpay).
    assert (Hdone2 : forall g' data,
              g' ∈ done ++ [g] -> Decompress.payload L abspath fs0 g' = Some data ->
              fs2 !! out g' = Some data).
    { intros g' data [Hin | ->%list_elem_of_singleton]%elem_of_app Hg'.
      - destruct (decide (out g' = out g)) as [Heq | Hne];
          [|rewrite (Hoth _ Hne); eauto].
        destruct (Decompress.payload L abspath fs0 g) as [d|] eqn:Hg.
        + destruct Hpay as [_ Hw]. rewrite Heq, Hw. f_equal.
          apply payload_Some in Hg as Hg2. destruct Hg2 as (pre & c & Hp & Hc & _).
          apply (out_same g g' d data Hg' (eq_sym Heq)); eauto.
        + destruct Hpay as [_ [-> | Hex]]; [eauto|].
          exfalso. destruct Hex as (pre & c & Hp & Hc).
          apply payload_Some in Hg' as (pre' & c' & Hp' & Hc' & Hd' & Hne').
          unfold out in Heq. rewrite Hp, Hp', !drop_last3_xml_gz in Heq.
          apply append_inj_r in Heq. subst pre'.
          assert (Hsome : Decompress.payload L abspath fs0 g = Some data).
          { apply payload_Some. exists pre, c'. rewrite Hp, <- Hp'. auto. }
          congruence.
      - rewrite Hg' in Hpay. apply Hpay. }
    destruct (Decompress.payload L abspath fs0 g) as [d|] eqn:Hg.
    + destruct Hpay as [-> _].
      destruct (IH (S n) fs2 (done ++ [g]) Hkept2 Hdone2)
        as (n' & fs3 & Hfold & Hkept3 & Hn & Hall & Huntouched).
      exists n', fs3.
      change (foldl step (n, fs1) (g :: l)) with (foldl step (step (n, fs1) g) l).
      replace (step (n, fs1) g) with (S n, fs2)
        by (unfold step; rewrite Hrun; reflexivity).
      split; [exact Hfold|]. split; [exact Hkept3|]. split.
      * rewrite filter_cons_True by (rewrite Hg; eauto). simpl. lia.
      * split; [intros g' data Hin; apply Hall; rewrite <- app_assoc; exact Hin|].
        intros q Hq. rewrite Huntouched by (intros g' Hin; apply Hq; right; exact Hin).
        apply Hoth, Hq. left.
    + destruct Hpay as [[e ->] _].
      destruct (IH n fs2 (done ++ [g]) Hkept2 Hdone2)
        as (n' & fs3 & Hfold & Hkept3 & Hn & Hall & Huntouched).
      exists n', fs3.
      change (foldl step (n, fs1) (g :: l)) with (foldl step (step (n, fs1) g) l).
      replace (step (n, fs1) g) with (n, fs2)
        by (unfold step; rewrite Hrun; reflexivity).
      split; [exact Hfold|]. split; [exact Hkept3|]. split.
      * rewrite filter_cons_False by (rewrite Hg; intros [? ?]; discriminate). exact Hn.
      * split; [intros g' data Hin; apply Hall; rewrite <- app_assoc; exact Hin|].
        intros q Hq. rewrite Huntouched by (intros g' Hin; apply Hq; right; exact Hin).
        apply Hoth, Hq. left.
Qed.

End Batch.

Lemma foldl_pointwise {A B : Type} (f1 f2 : A -> B -> A) (l : list B) :
  (forall a b, f1 a b = f2 a b) -> forall a, foldl f1 a l = foldl f2 a l.
Proof.
  intros Hf. induction l as [|b l IH]; intros a; simpl; [reflexivity|].
  rewrite Hf. apply IH.
Qed.

Section BatchResult.
Variable L : Libs.
Variable abspath : string -> string.
Variable getcwd : string.
Variable glob_xml_gz : files -> string -> list string.

(** X21. [decompress_all] goes through every match whatever fails on the way:
    the count it reports is the number of matches that exist, are named
    *.xml.gz and decompress to some data; each of these has its data in the
    file beside it at the end; no file named *.xml.gz is changed, and no
    file that is not the output of a match. *)
Theorem decompress_all_batch directory fs :
  let gz_files := glob_xml_gz fs (default getcwd directory) in
  let '(count, fs') :=
    Decompress.decompress_all L abspath getcwd glob_xml_gz directory fs in
  count = length (filter (fun g => is_Some (Decompress.payload L abspath fs g)) gz_files)
  /\ (forall g data, g ∈ gz_files -> Decompress.payload L abspath fs g = Some data ->
        fs' !! Decompress.drop_last3 (abspath g) = Some data)
  /\ (forall q, Decompress.endswith q ".xml.gz" = true -> fs' !! q = fs !! q)
  /\ (forall q, (forall g, g ∈ gz_files -> q <> Decompress.drop_last3 (abspath g)) ->
        fs' !! q = fs !! q).
Proof.
  intros gz_files.
  assert (Hperm : Decompress.sorted gz_files ≡ₚ gz_files)
    by apply merge_sort_Permutation.
  destruct (decompress_fold L abspath fs (Decompress.sorted gz_files) 0 fs [])
    as (n' & fs2 & Hfold & Hkept & Hn & Hall & Huntouched).
  { intros q _. reflexivity. }
  { intros g data Hin. inversion Hin. }
  assert (Hrun : Decompress.decompress_all L abspath getcwd glob_xml_gz directory fs
                 = (n', fs2)).
  { rewrite <- Hfold. unfold Decompress.decompress_all.
    apply foldl_pointwise. intros [success_count fs1] gz_file. reflexivity. }
  rewrite Hrun.
  split; [|split; [|split]].
  - rewrite Hn. simpl. rewrite Hperm. reflexivity.
  - intros g data Hin. apply Hall. simpl. rewrite Hperm. exact Hin.
  - exact Hkept.
  - intros q Hq. apply Huntouched. intros g Hin. apply Hq. rewrite <- Hperm. exact Hin.
Qed.

(** X22. The compressed file [write_outputs] leaves beside a plain file named
    *.xml is one [decompress_file] accepts, and decompressing it writes the
    plain file back as it is: the files are unchanged. *)
Theorem decompress_after_write root target fs fs1 pre gz_path :
  (forall path data, gzip_decompress L (gzip_compress L path data) = Some data) ->
  write_outputs L root target fs = Ok fs1 ->
  output_paths target = Ok (pre +:+ ".xml", gz_path) ->
  abspath gz_path = gz_path ->
  Decompress.decompress_file L abspath gz_path None fs1
    = (Decompress.Returned (pre +:+ ".xml"), fs1).
Proof.
  intros Hcodec Hw Hpaths Habs. unfold write_outputs in Hw. rewrite Hpaths in Hw.
  simpl in Hw. injection Hw as <-.
  destruct (output_paths_beside _ _ _ Hpaths) as [Hgz _].
  assert (Hgz' : gz_path = pre +:+ ".xml.gz") by (rewrite Hgz; apply append_assoc).
  assert (Hne : pre +:+ ".xml" <> gz_path) by (rewrite Hgz'; apply xml_gz_neq_xml).
  set (payload := xml_payload L root).
  set (fs1 := <[gz_path := gzip_compress L gz_path payload]>
                (<[pre +:+ ".xml" := payload]> fs)).
  assert (Hc : fs1 !! abspath gz_path = Some (gzip_compress L gz_path payload))
    by (rewrite Habs; apply lookup_insert_eq).
  rewrite (decompress_file_opened L abspath gz_path fs1 pre _
             (eq_trans Habs Hgz') Hc), Hcodec.
  destruct (String.eqb_spec payload "") as [He | _];
    [exfalso; exact (xml_payload_nonempty L root He)|].
  f_equal. apply insert_id. unfold fs1.
  rewrite lookup_insert_ne by congruence. apply lookup_insert_eq.
Qed.

End BatchResult.

Lemma decompress_file_failure_removes_output_witness :
  Decompress.decompress_file Sample.libs id "/pop/b.xml.gz" None Sample.pop_disk
  = (Decompress.Raised Decompress.GzipError, delete "/pop/b.xml" Sample.pop_disk)
  /\ delete "/pop/b.xml" Sample.pop_disk !! "/pop/b.xml" = None.
Proof.
  destruct (decompress_file_failure_removes_output Sample.libs id "/pop/b.xml.gz"
              Sample.pop_disk "/pop/b" "not gzip")
    as (e & Hrun & Hgzip & _ & Hgone & _);
    [reflexivity | reflexivity | left; reflexivity |].
  rewrite (Hgzip eq_refl) in Hrun. split; [exact Hrun | exact Hgone].
Defined.

Lemma decompress_file_onto_itself_witness :
  Decompress.decompress_file Sample.libs_gzip id "/pop/a.xml.gz" (Some "/pop/a.xml.gz")
    Sample.pop_disk
  = (Decompress.Raised Decompress.ZeroDivisionError,
     delete "/pop/a.xml.gz" Sample.pop_disk).
Proof.
  apply (decompress_file_onto_itself Sample.libs_gzip id "/pop/a.xml.gz" "/pop/a.xml.gz"
           Sample.pop_disk "GZ<population/>"); reflexivity.
Defined.

Lemma decompress_after_write_witness :
  Decompress.decompress_file Sample.libs id "/out/net.xml.gz" None Sample.written_out
  = (Decompress.Returned "/out/net.xml", Sample.written_out).
Proof.
  apply (decompress_after_write Sample.libs id build_network_root "/out/net.xml" ∅
           Sample.written_out "/out/net" "/out/net.xml.gz").
  - intros path data. reflexivity.
  - vm_compute; reflexivity.
  - vm_compute; reflexivity.
  - reflexivity.
Defined.

(** A directory with a good file, a file that is not gzip and a file with an
    empty payload: one success; the good file has its data beside it; the
    plain file an earlier run left beside the bad one is gone; the compressed
    files are as they were. *)
Example decompress_all_sample :
  Decompress.decompress_all Sample.libs id "/" Sample.pop_glob (Some "/pop")
    Sample.pop_disk
  = (1, {[ "/pop/a.xml.gz" := "GZ<population/>";
           "/pop/b.xml.gz" := "not gzip";
           "/pop/c.xml.gz" := "GZ";
           "/pop/a.xml" := "<population/>" ]}).
Proof. vm_compute. reflexivity. Qed.

Example list_gz_files_sorted :
  Decompress.list_gz_files "/" Sample.pop_glob (Some "/pop") Sample.pop_disk
  = [ "/pop/a.xml.gz"; "/pop/b.xml.gz"; "/pop/c.xml.gz" ].
Proof. vm_compute. reflexivity. Qed.
